(** * EcoGuard autofocus: a shallow embedding of [Autofocus.py]

    The script drives the lens of an ArduCAM IMX219-AF module: [set_focus]
    encodes a lens position into two bytes and hands them to [i2cset];
    [autofocus_demo] sweeps the positions 10, 20, ... while the sharpness of
    the frames keeps improving, then commits to the best position seen.

    Modelling choices.
    - Python integers are unbounded: they are [Z], and [<<], [>>], [&] are
      [Z.shiftl], [Z.shiftr], [Z.land].
    - [focus_metric] returns the mean of an unsigned 16 bit Laplacian image,
      a finite non-negative binary64 number.  The loop only stores and
      compares these numbers; every finite binary64 number is a rational and
      the comparisons [<] and [>] of finite floats agree with the order of
      the rationals, so a sharpness value is a [Q] ([-0.0] and [0.0] compare
      equal in Python, as [Qeq] numbers do here).
    - The camera, the window, the keyboard and the I2C bus are the
      environment: every iteration of the main loop receives one [Input]
      with what they answered.  What the loop does to them is recorded in a
      trace of [Event]s.
    - [i2cset] is taken to start: [subprocess.run] answers with an exit
      status.  The [OSError] of a command that cannot be started is not
      modelled; no [except] of the script would catch it, at either call of
      [set_focus]. *)

From Stdlib Require Import ZArith QArith List Bool Lia.
From Stdlib Require String Ascii DecimalString DecimalZ.
Import ListNotations.
Local Open Scope Z_scope.

(** ** Exceptions, events *)

(** The exceptions the script can raise on its own: the range check of
    [set_focus] and a non-zero exit status of [i2cset] under [check=True]
    (the exception carries the exit status and the command line, that is
    the two data bytes). *)
Inductive Exn : Type :=
| ValueError
| CalledProcessError (returncode data1 data2 : Z).

(** The messages of the [print] calls of [autofocus_demo]. *)
Inductive Msg : Type :=
| MsgNoFrame                    (* line 71 *)
| MsgI2cError (e : Exn)         (* line 81 *)
| MsgFocusSet (max_step : Z)    (* line 98 *)
| MsgRestart.                   (* line 111 *)

Inductive Event : Type :=
| EvImshow                          (* cv2.imshow, line 74 *)
| EvSetFocus (step : Z)             (* set_focus entered with this argument *)
| EvI2cset (data1 data2 : Z)        (* subprocess.run(["i2cset", "-y", "6", "0x0c", data1, data2]) *)
| EvFocusMetric (sharp : Q)         (* focus_metric(frame) returned sharp *)
| EvPrint (m : Msg)
| EvRelease.                        (* cap.release(); cv2.destroyAllWindows() *)

(** ** The actuator: [set_focus], lines 11-26 *)

Module Actuator.

Definition MAX_STEP : Z := 1023.

(** Lines 19-21. *)
Definition value (step : Z) : Z := Z.land (Z.shiftl step 4) 0x3FF0.
Definition data1 (step : Z) : Z := Z.land (Z.shiftr (value step) 8) 0x3F.
Definition data2 (step : Z) : Z := Z.land (value step) 0xF0.

(** What a reader of the two bytes computes back. *)
Definition decode (d1 d2 : Z) : Z := Z.lor (Z.shiftl d1 4) (Z.shiftr d2 4).

(** [set_focus step], with [rc] the exit status [i2cset] will answer with
    if it is run.  The result is the trace of the call and the exception
    raised, if any. *)
Definition set_focus (step rc : Z) : list Event * option Exn :=
  if negb ((0 <=? step) && (step <=? MAX_STEP)) then
    ([EvSetFocus step], Some ValueError)
  else
    let d1 := data1 step in
    let d2 := data2 step in
    if rc =? 0 then ([EvSetFocus step; EvI2cset d1 d2], None)
    else ([EvSetFocus step; EvI2cset d1 d2], Some (CalledProcessError rc d1 d2)).

End Actuator.

(** ** The main loop: [autofocus_demo], lines 60-111 *)

(** [a < b] on sharpness values. *)
Definition Qltb (a b : Q) : bool := negb (Qle_bool b a).

(** The local variables of [autofocus_demo]. *)
Record State : Type := mkState {
  max_step : Z;
  max_metric : Q;
  last_metric : Q;
  dec_frames : Z;
  step : Z;
  finished : bool
}.

(** Lines 61-66, and again lines 105-110. *)
Definition init : State :=
  {| max_step := 10; max_metric := 0; last_metric := 0;
     dec_frames := 0; step := 10; finished := false |}.

(** What the environment answers during one iteration. *)
Record Input : Type := mkInput {
  window : bool;        (* cv2.getWindowProperty("CSI Camera", 0) >= 0 *)
  frame : option Q;     (* cap.read(): None when ret is false, else the
                           frame, known by its focus_metric *)
  i2c_rc : Z;           (* exit status of i2cset, should it be run *)
  waitKey : Z           (* cv2.waitKey(16) *)
}.

(** How an iteration ends: falls through to the next one, [break], or an
    exception that nothing catches. *)
Inductive Signal : Type :=
| Go
| Stop
| Uncaught (e : Exn).

(** The guard of line 77. *)
Definition searching (s : State) : bool :=
  (dec_frames s <? 6) && (step s <? 1020).

(** Lines 84-92, once [set_focus(step)] has returned. *)
Definition sample (s : State) (sharp : Q) : State :=
  let improved := Qltb (max_metric s) sharp in
  {| max_step := if improved then step s else max_step s;
     max_metric := if improved then sharp else max_metric s;
     last_metric := sharp;
     dec_frames := if Qltb sharp (last_metric s) then dec_frames s + 1 else 0;
     step := step s + 10;
     finished := finished s |}.

Definition commit (s : State) : State :=
  {| max_step := max_step s; max_metric := max_metric s;
     last_metric := last_metric s; dec_frames := dec_frames s;
     step := step s; finished := true |}.

(** Lines 77-98. *)
Definition focus_stage (s : State) (sharp : Q) (rc : Z)
  : State * list Event * Signal :=
  if searching s then
    match Actuator.set_focus (step s) rc with
    | (ev, None) => (sample s sharp, ev ++ [EvFocusMetric sharp], Go)
    | (ev, Some (CalledProcessError r d1 d2)) =>
        (s, ev ++ [EvPrint (MsgI2cError (CalledProcessError r d1 d2))], Stop)
    | (ev, Some ValueError) => (s, ev, Uncaught ValueError)
    end
  else if negb (finished s) then
    match Actuator.set_focus (max_step s) rc with
    | (ev, None) => (commit s, ev ++ [EvPrint (MsgFocusSet (max_step s))], Go)
    | (ev, Some e) => (s, ev, Uncaught e)
    end
  else (s, [], Go).

(** Lines 101-111. *)
Definition key_stage (s : State) (k : Z) : State * list Event * Signal :=
  let key := Z.land k 0xFF in
  if key =? 27 then (s, [], Stop)
  else if (key =? 114) || (key =? 10) then (init, [EvPrint MsgRestart], Go)
  else (s, [], Go).

(** The body of the [while] loop, lines 69-111. *)
Definition tick (s : State) (i : Input) : State * list Event * Signal :=
  match frame i with
  | None => (s, [EvPrint MsgNoFrame], Stop)
  | Some sharp =>
      match focus_stage s sharp (i2c_rc i) with
      | (s1, ev1, Go) =>
          match key_stage s1 (waitKey i) with
          | (s2, ev2, sg) => (s2, EvImshow :: ev1 ++ ev2, sg)
          end
      | (s1, ev1, sg) => (s1, EvImshow :: ev1, sg)
      end
  end.

(** How far a run got: the inputs ran out with the loop still going, the
    loop was left (lines 113-114 then run), or an exception escaped
    [autofocus_demo]; [__main__] catches [KeyboardInterrupt] only, so the
    interpreter dies on it. *)
Inductive Status : Type :=
| Pending
| Exited
| Crashed (e : Exn).

Record Outcome : Type := mkOutcome {
  final : State;
  trace : list Event;
  status : Status
}.

(** The [while] loop, lines 68-114, over the answers of the environment. *)
Fixpoint run (s : State) (ins : list Input) : Outcome :=
  match ins with
  | [] => {| final := s; trace := []; status := Pending |}
  | i :: rest =>
      if window i then
        match tick s i with
        | (s', ev, Go) =>
            let r := run s' rest in
            {| final := final r; trace := ev ++ trace r; status := status r |}
        | (s', ev, Stop) =>
            {| final := s'; trace := ev ++ [EvRelease]; status := Exited |}
        | (s', ev, Uncaught e) =>
            {| final := s'; trace := ev; status := Crashed e |}
        end
      else {| final := s; trace := [EvRelease]; status := Exited |}
  end.

(** ** Reading a trace *)

(** The arguments of the [set_focus] calls, in order. *)
Fixpoint commanded (tr : list Event) : list Z :=
  match tr with
  | [] => []
  | EvSetFocus a :: tr' => a :: commanded tr'
  | _ :: tr' => commanded tr'
  end.

(** The transport writes, in order. *)
Fixpoint writes (tr : list Event) : list (Z * Z) :=
  match tr with
  | [] => []
  | EvI2cset d1 d2 :: tr' => (d1, d2) :: writes tr'
  | _ :: tr' => writes tr'
  end.

(** The sharpness values the search consumed, in order. *)
Fixpoint metrics (tr : list Event) : list Q :=
  match tr with
  | [] => []
  | EvFocusMetric q :: tr' => q :: metrics tr'
  | _ :: tr' => metrics tr'
  end.

(** The messages printed, in order. *)
Fixpoint printed (tr : list Event) : list Msg :=
  match tr with
  | [] => []
  | EvPrint m :: tr' => m :: printed tr'
  | _ :: tr' => printed tr'
  end.

(** An iteration in which the camera delivers a frame of sharpness [q], the
    bus works, the window stays open and no key is pressed ([waitKey]
    answers -1). *)
Definition feed (q : Q) : Input :=
  {| window := true; frame := Some q; i2c_rc := 0; waitKey := -1 |}.

Definition scores (l : list Z) : list Input := map (fun z => feed (inject_Z z)) l.

(** The key codes that [key_stage] reacts to. *)
Definition key_of (i : Input) : Z := Z.land (waitKey i) 0xFF.
Definition restarts (i : Input) : bool := (key_of i =? 114) || (key_of i =? 10).

(** ** Vocabulary of the statements *)

(** The invariant of the loop. *)
Definition Inv (s : State) : Prop :=
  step s mod 10 = 0 /\ max_step s mod 10 = 0
  /\ 10 <= max_step s <= step s /\ step s <= 1020 /\ max_step s <= 1010
  /\ 0 <= dec_frames s <= 6.



(** Every "focus set" message of a trace comes right after the
    [set_focus] call for the position it carries and the write of the two
    bytes of that position. *)
Fixpoint announced (tr : list Event) : bool :=
  match tr with
  | [] => true
  | EvSetFocus a :: EvI2cset d1 d2 :: EvPrint (MsgFocusSet m) :: t =>
      (a =? m) && (d1 =? Actuator.data1 m) && (d2 =? Actuator.data2 m)
      && announced t
  | EvPrint (MsgFocusSet _) :: _ => false
  | _ :: t => announced t
  end.

(** From a "focus set" message to the next "restart" message a trace holds
    no [set_focus] call, no write, no sample and no second "focus set"
    message; [done] tells whether the session under way has had its
    message. *)
Fixpoint quiet_after (done : bool) (tr : list Event) : bool :=
  match tr with
  | [] => true
  | EvPrint MsgRestart :: t => quiet_after false t
  | EvPrint (MsgFocusSet _) :: t => negb done && quiet_after true t
  | EvSetFocus _ :: t | EvI2cset _ _ :: t | EvFocusMetric _ :: t =>
      negb done && quiet_after done t
  | _ :: t => quiet_after done t
  end.

(** The position of the "focus set" message of the session under way at
    the end of a trace, if it has had one; [cur] is the answer so far. *)
Fixpoint committed (cur : option Z) (tr : list Event) : option Z :=
  match tr with
  | [] => cur
  | EvPrint MsgRestart :: t => committed None t
  | EvPrint (MsgFocusSet m) :: t => committed (Some m) t
  | _ :: t => committed cur t
  end.


(** [m] is the greatest element of [l]. *)
Definition is_max (m : Q) (l : list Q) : Prop :=
  (exists x, In x l /\ (x == m)%Q) /\ Forall (fun x => (x <= m)%Q) l.

(** [m] occurs in [l] at index [i] and everything before is smaller. *)
Definition first_at (m : Q) (l : list Q) (i : nat) : Prop :=
  (i < length l)%nat /\ (nth i l 0%Q == m)%Q
  /\ forall j, (j < i)%nat -> (nth j l 0%Q < m)%Q.

(** The trace of an iteration that only shows the frame. *)
Definition idle_trace (qs : list Q) : list Event := map (fun _ => EvImshow) qs.

(** Every element is strictly below the one before it. *)
Fixpoint decreasing (l : list Q) : Prop :=
  match l with
  | a :: (b :: _) as t => (b < a)%Q /\ decreasing t
  | _ => True
  end.

(** The local variables after the first [k] scores of [l], fed undisturbed
    from the initial values. *)
Definition after (k : nat) (l : list Q) : State :=
  final (run init (map feed (firstn k l))).

(** Case analysis of one iteration: every test of [tick] is decided and the
    matches on the outcome of [set_focus] are reduced. *)
Ltac break_tick :=
  unfold tick, focus_stage, key_stage, Actuator.set_focus; cbv zeta;
  repeat
    (match goal with
     | |- context [match frame ?i with _ => _ end] => destruct (frame i) eqn:?
     | |- context [if ?b then _ else _] => destruct b eqn:?
     end;
     cbn [fst snd app negb]).

(** ** The camera pipeline: [gstreamer_pipeline], lines 36-48 *)

Module Pipeline.
Import Stdlib.Strings.Ascii Stdlib.Strings.String.
Local Open Scope string_scope.

(** [str(n)] of a Python integer, as an f-string renders it: the decimal
    digits, after a [-] when the integer is negative. *)
Definition str (n : Z) : string :=
  DecimalString.NilEmpty.string_of_int (Z.to_int n).

(** Lines 36-48. *)
Definition gstreamer_pipeline
  (capture_width capture_height display_width display_height
   framerate flip_method : Z) : string :=
  "nvarguscamerasrc ! " ++
  "video/x-raw(memory:NVMM), width=(int)" ++ str capture_width ++ ", " ++
  "height=(int)" ++ str capture_height ++ ", format=(string)NV12, " ++
  "framerate=(fraction)" ++ str framerate ++ "/1 ! " ++
  "nvvidconv flip-method=" ++ str flip_method ++ " ! " ++
  "video/x-raw, width=(int)" ++ str display_width ++
  ", height=(int)" ++ str display_height ++ ", " ++
  "format=(string)BGRx ! videoconvert ! " ++
  "video/x-raw, format=(string)BGR ! appsink".

(** The call of lines 52 and 53, with the default arguments of line 36. *)
Definition default_pipeline : string := gstreamer_pipeline 1280 720 1280 720 60 0.

(** Reading a pipeline description back.  [strip p s] takes the prefix
    [p] off [s]; [read_int] takes the longest prefix made of digits and
    [-] and reads it as a number. *)
Fixpoint strip (p s : string) : option string :=
  match p with
  | EmptyString => Some s
  | String a p' =>
      match s with
      | String b s' => if Ascii.eqb a b then strip p' s' else None
      | EmptyString => None
      end
  end.

Definition is_num (c : ascii) : bool :=
  match c with
  | "-" | "0" | "1" | "2" | "3" | "4" | "5" | "6" | "7" | "8" | "9" => true
  | _ => false
  end%char.

Fixpoint span_num (s : string) : string * string :=
  match s with
  | String c s' =>
      if is_num c then (String c (fst (span_num s')), snd (span_num s'))
      else (EmptyString, s)
  | EmptyString => (EmptyString, EmptyString)
  end.

Definition read_int (s : string) : option (Z * string) :=
  match DecimalString.NilEmpty.int_of_string (fst (span_num s)) with
  | Some d => Some (Z.of_int d, snd (span_num s))
  | None => None
  end.

(** [field p s] takes the text [p] off [s] and reads the number after it. *)
Definition field (p s : string) : option (Z * string) :=
  match strip p s with
  | Some s' => read_int s'
  | None => None
  end.

Definition and_then {A B : Type} (o : option A) (k : A -> option B) : option B :=
  match o with
  | Some a => k a
  | None => None
  end.

(** The six numbers of a pipeline description, in the order of the
    parameters of [gstreamer_pipeline]. *)
Definition parse (s : string) : option (Z * Z * Z * Z * Z * Z) :=
  and_then (field "nvarguscamerasrc ! video/x-raw(memory:NVMM), width=(int)" s)
    (fun '(cw, s) =>
  and_then (field ", height=(int)" s)
    (fun '(ch, s) =>
  and_then (field ", format=(string)NV12, framerate=(fraction)" s)
    (fun '(fr, s) =>
  and_then (field "/1 ! nvvidconv flip-method=" s)
    (fun '(fl, s) =>
  and_then (field " ! video/x-raw, width=(int)" s)
    (fun '(dw, s) =>
  and_then (field ", height=(int)" s)
    (fun '(dh, s) =>
  match strip ", format=(string)BGRx ! videoconvert ! video/x-raw, format=(string)BGR ! appsink" s with
  | Some EmptyString => Some (cw, ch, dw, dh, fr, fl)
  | _ => None
  end)))))).

End Pipeline.

(** In every state a run reaches, the best value is not negative; while it
    is 0 the best position is still the initial 10, and once it is
    positive the best position is one the sweep has already left. *)
Definition Remembered (s : State) : Prop :=
  (0 <= max_metric s)%Q
  /\ (Qltb 0 (max_metric s) = false -> max_step s = 10)
  /\ (Qltb 0 (max_metric s) = true -> max_step s < step s).

(** The two bytes [set_focus] sends for a position. *)
Definition bytes_of (a : Z) : Z * Z := (Actuator.data1 a, Actuator.data2 a).

(** How often a trace releases the camera (lines 113-114). *)
Fixpoint releases (tr : list Event) : nat :=
  match tr with
  | [] => 0
  | EvRelease :: t => S (releases t)
  | _ :: t => releases t
  end.

(** No input of the list carries the restart key. *)
Definition no_restart (ins : list Input) : bool :=
  forallb (fun i => negb (restarts i)) ins.

(** The positions of a sweep of [k] samples that starts at [a]. *)
Definition sweep_from (a : Z) (k : nat) : list Z :=
  map (fun j => a + 10 * Z.of_nat j) (seq 0 k).

(** On a history of scores, latest first: how many of the latest scores
    fell strictly below the one before them, in a row. *)
Fixpoint drops (h : list Q) : Z :=
  match h with
  | a :: (b :: _) as t => if Qltb a b then drops t + 1 else 0
  | _ => 0
  end.

(** No element is below the one before it. *)
Fixpoint nondecreasing (l : list Q) : Prop :=
  match l with
  | a :: (b :: _) as t => (a <= b)%Q /\ nondecreasing t
  | _ => True
  end.

(** * Properties *)

(** ** The actuator: encoding and range check *)

Module ActuatorFacts.
Import Actuator.

(** The masks of lines 19-21 keep the ten low bits of [step], moved up by
    four: the arithmetic reading of the three formulas. *)
Lemma value_spec s : value s = (s mod 1024) * 16.
Proof.
  unfold value. change 0x3FF0 with (Z.shiftl (Z.ones 10) 4).
  rewrite <- Z.shiftl_land, Z.land_ones, Z.shiftl_mul_pow2 by lia.
  reflexivity.
Qed.

Lemma data1_spec s : data1 s = (s mod 1024) / 16.
Proof.
  unfold data1. rewrite value_spec. change 0x3F with (Z.ones 6).
  rewrite Z.land_ones, Z.shiftr_div_pow2 by lia.
  change (2 ^ 8) with (16 * 16). change (2 ^ 6) with 64.
  rewrite <- Z.div_div, Z.div_mul by lia.
  apply Z.mod_small.
  pose proof (Z.mod_pos_bound s 1024 ltac:(lia)).
  split; [apply Z.div_pos; lia | apply Z.div_lt_upper_bound; lia].
Qed.

Lemma data2_spec s : data2 s = (s mod 16) * 16.
Proof.
  unfold data2, value. rewrite <- Z.land_assoc.
  change (Z.land 0x3FF0 0xF0) with (Z.shiftl (Z.ones 4) 4).
  rewrite <- Z.shiftl_land, Z.land_ones, Z.shiftl_mul_pow2 by lia.
  reflexivity.
Qed.

(** A multiple of 16 and a number below 16 share no bit. *)
Lemma nibbles_disjoint s : Z.land (s / 16 * 16) (s mod 16) = 0.
Proof.
  change 16 with (2 ^ 4).
  rewrite <- (Z.shiftl_mul_pow2 _ 4), <- (Z.land_ones s 4) by lia.
  apply Z.bits_inj'. intros n Hn. rewrite Z.land_spec, Z.bits_0.
  destruct (Z.ltb_spec n 4).
  - rewrite Z.shiftl_spec_low by lia. reflexivity.
  - rewrite Z.land_spec, Z.ones_spec_high by lia.
    rewrite !andb_false_r. reflexivity.
Qed.

Lemma in_range_iff s :
  (0 <=? s) && (s <=? MAX_STEP) = true <-> 0 <= s <= 1023.
Proof. unfold MAX_STEP. rewrite andb_true_iff, !Z.leb_le. tauto. Qed.

(** A call in range raises [ValueError] never, and writes the two bytes. *)
Lemma set_focus_in_range s rc :
  0 <= s <= 1023 ->
  set_focus s rc =
    ([EvSetFocus s; EvI2cset (data1 s) (data2 s)],
     if rc =? 0 then None else Some (CalledProcessError rc (data1 s) (data2 s))).
Proof.
  intros H. unfold set_focus.
  rewrite (proj2 (in_range_iff s) H). cbn [negb].
  destruct (rc =? 0); reflexivity.
Qed.

(** C5.  [set_focus s] raises the range error exactly when [s < 0] or
    [s > 1023], whatever the bus would answer, and then the call has
    touched nothing: its trace holds no [i2cset] invocation.  (A call in
    range invokes [i2cset] once, with the two encoded bytes.) *)
Theorem set_focus_range_error (s rc : Z) :
  (snd (set_focus s rc) = Some ValueError <-> s < 0 \/ s > MAX_STEP)
  /\ (snd (set_focus s rc) = Some ValueError ->
      fst (set_focus s rc) = [EvSetFocus s] /\ writes (fst (set_focus s rc)) = [])
  /\ writes (fst (set_focus s rc)) =
       (if (0 <=? s) && (s <=? MAX_STEP) then [(data1 s, data2 s)] else []).
Proof.
  unfold set_focus.
  destruct ((0 <=? s) && (s <=? MAX_STEP)) eqn:E; cbn [negb].
  - apply in_range_iff in E. unfold MAX_STEP.
    destruct (rc =? 0); cbn; repeat split; try discriminate; lia.
  - assert (R : ~ (0 <= s <= 1023)) by (rewrite <- in_range_iff, E; discriminate).
    unfold MAX_STEP. cbn. repeat split; try reflexivity. lia.
Qed.

Lemma set_focus_range_error_witness :
  snd (set_focus 1024 0) = Some ValueError
  /\ fst (set_focus 1024 0) = [EvSetFocus 1024]
  /\ writes (fst (set_focus 1024 0)) = [].
Proof.
  split; [reflexivity |].
  apply (proj1 (proj2 (set_focus_range_error 1024 0))). reflexivity.
Defined.

(** C6, as the claim states its example: it asks for [data2 = 48] at
    step 63, where line 21 gives 240. *)
Lemma encoding_step63_refuted :
  ~ (value 63 = 1008 /\ data1 63 = 3 /\ data2 63 = 48).
Proof. vm_compute. intros [_ [_ H]]. discriminate H. Qed.

(** C6, amended.  The encoding is [value = (step << 4) & 0x3FF0],
    [data1 = (value >> 8) & 0x3F], [data2 = value & 0xF0]; for every
    integer step the two bytes fit in a byte ([data1 <= 63],
    [data2 <= 240]); step 0 gives (0, 0), step 63 gives value 1008,
    data1 3 and data2 240, step 1023 gives value 16368, data1 63 and
    data2 240. *)
Theorem encoding_bytes (s : Z) :
  value s = Z.land (Z.shiftl s 4) 16368
  /\ data1 s = Z.land (Z.shiftr (value s) 8) 63
  /\ data2 s = Z.land (value s) 240
  /\ 0 <= data1 s <= 63
  /\ 0 <= data2 s <= 240
  /\ (value 0, data1 0, data2 0) = (0, 0, 0)
  /\ (value 63, data1 63, data2 63) = (1008, 3, 240)
  /\ (value 1023, data1 1023, data2 1023) = (16368, 63, 240).
Proof.
  repeat split; try reflexivity.
  - rewrite data1_spec. apply Z.div_pos; [| lia].
    apply Z.mod_pos_bound; lia.
  - rewrite data1_spec.
    pose proof (Z.mod_pos_bound s 1024 ltac:(lia)).
    assert ((s mod 1024) / 16 < 64) by (apply Z.div_lt_upper_bound; lia).
    lia.
  - rewrite data2_spec. pose proof (Z.mod_pos_bound s 16 ltac:(lia)). lia.
  - rewrite data2_spec. pose proof (Z.mod_pos_bound s 16 ltac:(lia)). lia.
Qed.

(** Reading the two bytes back, on the valid range. *)
Lemma decode_data (s : Z) :
  0 <= s <= 1023 -> decode (data1 s) (data2 s) = s.
Proof.
  intros H. unfold decode. rewrite data1_spec, data2_spec.
  rewrite Z.mod_small by lia.
  rewrite Z.shiftr_div_pow2, Z.div_mul by lia.
  rewrite Z.shiftl_mul_pow2 by lia. change (2 ^ 4) with 16.
  pose proof (nibbles_disjoint s).
  pose proof (Z.add_lor_land (s / 16 * 16) (s mod 16)).
  pose proof (Z.div_mod s 16 ltac:(lia)). lia.
Qed.

(** C9.  On the valid range the two bytes determine the step:
    [(data1 << 4) | (data2 >> 4)] gives it back, so no other step of the
    range has the same two bytes. *)
Theorem encode_roundtrip (s : Z) :
  0 <= s <= 1023 ->
  decode (data1 s) (data2 s) = s
  /\ forall t, 0 <= t <= 1023 -> data1 t = data1 s -> data2 t = data2 s -> t = s.
Proof.
  intros Hs. split; [apply decode_data; exact Hs |].
  intros t Ht E1 E2.
  rewrite <- (decode_data s Hs), <- (decode_data t Ht), E1, E2.
  reflexivity.
Qed.

Lemma encode_roundtrip_witness :
  0 <= 63 <= 1023 /\ decode (data1 63) (data2 63) = 63.
Proof.
  split; [lia |]. apply (proj1 (encode_roundtrip 63 ltac:(lia))).
Defined.

End ActuatorFacts.

(** ** One iteration *)

Lemma Qltb_lt (a b : Q) : Qltb a b = true <-> (a < b)%Q.
Proof.
  unfold Qltb. rewrite negb_true_iff, <- not_true_iff_false, Qle_bool_iff.
  split; [apply Qnot_le_lt | apply Qlt_not_le].
Qed.

Lemma Qltb_ge (a b : Q) : Qltb a b = false <-> (b <= a)%Q.
Proof.
  unfold Qltb. rewrite negb_false_iff. apply Qle_bool_iff.
Qed.

Lemma Qltb_irrefl (a : Q) : Qltb a a = false.
Proof. apply Qltb_ge, Qle_refl. Qed.

Lemma searching_true (s : State) :
  searching s = true <-> dec_frames s < 6 /\ step s < 1020.
Proof. unfold searching. rewrite andb_true_iff, !Z.ltb_lt. tauto. Qed.

Lemma searching_false (s : State) :
  searching s = false <-> 6 <= dec_frames s \/ 1020 <= step s.
Proof.
  unfold searching. rewrite andb_false_iff, !Z.ltb_ge. tauto.
Qed.

Lemma searching_commit (s : State) : searching (commit s) = searching s.
Proof. reflexivity. Qed.

Lemma key_stage_state (s : State) (k : Z) :
  fst (fst (key_stage s k)) =
    if Z.land k 0xFF =? 27 then s
    else if (Z.land k 0xFF =? 114) || (Z.land k 0xFF =? 10) then init else s.
Proof.
  unfold key_stage. cbv zeta.
  destruct (Z.land k 0xFF =? 27); [reflexivity |].
  destruct ((Z.land k 0xFF =? 114) || (Z.land k 0xFF =? 10)); reflexivity.
Qed.

(** The four things an iteration can do to the local variables. *)
Lemma tick_state_cases (s : State) (i : Input) :
  let s' := fst (fst (tick s i)) in
  s' = s
  \/ (exists q, searching s = true /\ s' = sample s q)
  \/ (searching s = false /\ finished s = false /\ s' = commit s)
  \/ s' = init.
Proof.
  unfold tick, focus_stage, Actuator.set_focus.
  destruct (frame i) as [q |]; [| left; reflexivity].
  destruct (searching s) eqn:Es.
  - destruct (negb _); [left; reflexivity |].
    destruct (i2c_rc i =? 0); [| left; reflexivity].
    cbn -[key_stage Z.land]. 
    destruct (key_stage (sample s q) (waitKey i)) as [[s2 ev2] sg] eqn:K.
    pose proof (key_stage_state (sample s q) (waitKey i)) as KS.
    rewrite K in KS. cbn in KS. cbn. subst s2.
    destruct (_ =? 27); [right; left; eauto |].
    destruct (_ || _); [right; right; right; reflexivity | right; left; eauto].
  - destruct (finished s) eqn:Ef; cbn [negb].
    + cbn -[key_stage Z.land].
      destruct (key_stage s (waitKey i)) as [[s2 ev2] sg] eqn:K.
      pose proof (key_stage_state s (waitKey i)) as KS.
      rewrite K in KS. cbn in KS. cbn. subst s2.
      destruct (_ =? 27); [left; reflexivity |].
      destruct (_ || _); [right; right; right; reflexivity | left; reflexivity].
    + destruct (negb _); [left; reflexivity |].
      destruct (i2c_rc i =? 0); [| left; reflexivity].
      cbn -[key_stage Z.land].
      destruct (key_stage (commit s) (waitKey i)) as [[s2 ev2] sg] eqn:K.
      pose proof (key_stage_state (commit s) (waitKey i)) as KS.
      rewrite K in KS. cbn in KS. cbn. subst s2.
      destruct (_ =? 27); [right; right; left; auto |].
      destruct (_ || _); [right; right; right; reflexivity | right; right; left; auto].
Qed.

Lemma Inv_init : Inv init.
Proof. unfold Inv; cbn. lia. Qed.

Lemma Inv_sample (s : State) (q : Q) :
  Inv s -> searching s = true -> Inv (sample s q).
Proof.
  unfold Inv. intros (H1 & H2 & H3 & H4 & H5 & H6) Hs.
  apply searching_true in Hs. destruct Hs as [Hd Hst].
  assert (step s <= 1010).
  { pose proof (Z.div_mod (step s) 10 ltac:(lia)). lia. }
  cbn. destruct (Qltb (max_metric s) q), (Qltb q (last_metric s));
    repeat split; try lia;
    rewrite <- Zplus_mod_idemp_l, H1; reflexivity.
Qed.

Lemma Inv_tick (s : State) (i : Input) : Inv s -> Inv (fst (fst (tick s i))).
Proof.
  intros H.
  destruct (tick_state_cases s i) as [E | [(q & Hs & E) | [(_ & _ & E) | E]]];
    rewrite E.
  - exact H.
  - apply Inv_sample; assumption.
  - exact H.
  - exact Inv_init.
Qed.


Lemma run_cons (s : State) (i : Input) (rest : list Input) :
  run s (i :: rest) =
    if window i then
      match tick s i with
      | (s', ev, Go) =>
          {| final := final (run s' rest); trace := ev ++ trace (run s' rest);
             status := status (run s' rest) |}
      | (s', ev, Stop) =>
          {| final := s'; trace := ev ++ [EvRelease]; status := Exited |}
      | (s', ev, Uncaught e) => {| final := s'; trace := ev; status := Crashed e |}
      end
    else {| final := s; trace := [EvRelease]; status := Exited |}.
Proof. reflexivity. Qed.

(** A property of the local variables that every iteration preserves holds
    wherever a run ends. *)
Lemma run_preserves (P : State -> Prop) :
  (forall s i, P s -> P (fst (fst (tick s i)))) ->
  forall ins s, P s -> P (final (run s ins)).
Proof.
  intros HP. induction ins as [| i rest IH]; intros s Hs; [exact Hs |].
  rewrite run_cons. destruct (window i); [| exact Hs].
  pose proof (HP s i Hs) as H1.
  destruct (tick s i) as [[s' ev] [| | e]]; cbn in *; auto.
Qed.

(** ** Traces *)

Lemma commanded_app (t u : list Event) :
  commanded (t ++ u) = commanded t ++ commanded u.
Proof.
  induction t as [| e t IH]; [reflexivity |].
  destruct e; cbn; rewrite IH; reflexivity.
Qed.

Lemma writes_app (t u : list Event) : writes (t ++ u) = writes t ++ writes u.
Proof.
  induction t as [| e t IH]; [reflexivity |].
  destruct e; cbn; rewrite IH; reflexivity.
Qed.

Lemma metrics_app (t u : list Event) : metrics (t ++ u) = metrics t ++ metrics u.
Proof.
  induction t as [| e t IH]; [reflexivity |].
  destruct e; cbn; rewrite IH; reflexivity.
Qed.

Lemma printed_app (t u : list Event) : printed (t ++ u) = printed t ++ printed u.
Proof.
  induction t as [| e t IH]; [reflexivity |].
  destruct e; cbn; rewrite IH; reflexivity.
Qed.

(** An iteration calls [set_focus] with [step] or with [max_step] only. *)
Lemma tick_commanded (s : State) (i : Input) (a : Z) :
  In a (commanded (snd (fst (tick s i)))) -> a = step s \/ a = max_step s.
Proof.
  break_tick; cbn; intuition (subst; auto).
Qed.

(** The range check of [set_focus] fails in an iteration only on a [step]
    or a [max_step] outside 0..1023. *)
Lemma tick_ValueError (s : State) (i : Input) :
  snd (tick s i) = Uncaught ValueError ->
  ~ (0 <= step s <= 1023) \/ ~ (0 <= max_step s <= 1023).
Proof.
  break_tick; try discriminate; intros _;
    match goal with
    | H : negb ((0 <=? ?a) && (?a <=? Actuator.MAX_STEP)) = true |- _ =>
        rewrite negb_true_iff, <- not_true_iff_false,
          ActuatorFacts.in_range_iff in H; tauto
    end.
Qed.

Lemma run_commanded (ins : list Input) :
  forall s, Inv s ->
  Forall (fun a => 10 <= a <= 1020) (commanded (trace (run s ins)))
  /\ status (run s ins) <> Crashed ValueError.
Proof.
  induction ins as [| i rest IH]; intros s Hs.
  - cbn. split; [constructor | discriminate].
  - rewrite run_cons. destruct (window i).
    2:{ cbn. split; [constructor | discriminate]. }
    pose proof (Inv_tick s i Hs) as H1.
    pose proof (tick_commanded s i) as H2.
    pose proof (tick_ValueError s i) as H3.
    assert (B : Forall (fun a => 10 <= a <= 1020) (commanded (snd (fst (tick s i))))).
    { apply Forall_forall. intros a Ha. unfold Inv in Hs.
      destruct (H2 a Ha); subst a; lia. }
    destruct (tick s i) as [[s' ev] [| | e]]; cbn [fst snd] in *; cbn [final trace status].
    + destruct (IH s' H1) as [F N]. split; [| exact N].
      rewrite commanded_app. apply Forall_app. split; assumption.
    + split; [| discriminate].
      rewrite commanded_app. apply Forall_app. split; [assumption | constructor].
    + split; [assumption |].
      intros E. injection E as ->. unfold Inv in Hs.
      destruct (H3 eq_refl); lia.
Qed.

(** ** The invariant, on runs *)

(** C10.  In every state a run from the initial values reaches (a restart
    included, which gives the initial values again) [step] and [max_step]
    are multiples of 10 with [10 <= max_step <= step <= 1020] and
    [max_step <= 1010], and [0 <= dec_frames <= 6]; one more iteration keeps
    that.  So every [set_focus] call of the loop has its argument in
    0..1023, passes the range check, and no run dies of [ValueError]. *)
Theorem loop_invariant (ins : list Input) (i : Input) :
  let r := run init ins in
  Inv init
  /\ Inv (final r)
  /\ Inv (fst (fst (tick (final r) i)))
  /\ Forall (fun a => 0 <= a <= 1023
                     /\ forall rc, snd (Actuator.set_focus a rc) <> Some ValueError)
       (commanded (trace r))
  /\ status r <> Crashed ValueError.
Proof.
  cbv zeta.
  assert (H : Inv (final (run init ins))).
  { apply (run_preserves Inv Inv_tick). exact Inv_init. }
  destruct (run_commanded ins init Inv_init) as [F N].
  split; [exact Inv_init |]. split; [exact H |].
  split; [apply Inv_tick; exact H |]. split; [| exact N].
  apply Forall_forall. intros a Ha.
  rewrite Forall_forall in F. specialize (F a Ha).
  split; [lia |]. intros rc.
  rewrite ActuatorFacts.set_focus_in_range by lia.
  cbn. destruct (rc =? 0); discriminate.
Qed.

(** ** Convergence *)










(** The three readings of a trace tell traces apart: a message without
    its call, a call after the message and a second message are refused,
    and a restart clears the committed position. *)
Lemma trace_checks_refuse :
  announced [EvPrint (MsgFocusSet 10)] = false
  /\ announced [EvSetFocus 20; EvI2cset 0 160; EvPrint (MsgFocusSet 10)] = false
  /\ quiet_after false [EvPrint (MsgFocusSet 10); EvSetFocus 10] = false
  /\ quiet_after false [EvPrint (MsgFocusSet 10); EvPrint (MsgFocusSet 10)] = false
  /\ quiet_after false
       [EvPrint (MsgFocusSet 10); EvPrint MsgRestart; EvSetFocus 10] = true
  /\ committed None [EvPrint (MsgFocusSet 10); EvPrint MsgRestart] = None.
Proof. repeat split. Qed.



(** ** Undisturbed runs: frames arrive, the bus works, no key is pressed *)

Lemma tick_feed_search (s : State) (q : Q) :
  searching s = true -> 0 <= step s ->
  tick s (feed q) =
    (sample s q,
     [EvImshow; EvSetFocus (step s);
      EvI2cset (Actuator.data1 (step s)) (Actuator.data2 (step s));
      EvFocusMetric q], Go).
Proof.
  intros Hs H0. pose proof (proj1 (searching_true s) Hs) as [_ H1].
  unfold tick, focus_stage. cbn [frame feed i2c_rc waitKey]. rewrite Hs.
  rewrite ActuatorFacts.set_focus_in_range by lia. reflexivity.
Qed.

Lemma tick_feed_commit (s : State) (q : Q) :
  searching s = false -> finished s = false -> 0 <= max_step s <= 1023 ->
  tick s (feed q) =
    (commit s,
     [EvImshow; EvSetFocus (max_step s);
      EvI2cset (Actuator.data1 (max_step s)) (Actuator.data2 (max_step s));
      EvPrint (MsgFocusSet (max_step s))], Go).
Proof.
  intros Hs Hf H. unfold tick, focus_stage. cbn [frame feed i2c_rc waitKey].
  rewrite Hs, Hf. cbn [negb].
  rewrite ActuatorFacts.set_focus_in_range by lia. reflexivity.
Qed.

Lemma tick_feed_idle (s : State) (q : Q) :
  searching s = false -> finished s = true ->
  tick s (feed q) = (s, [EvImshow], Go).
Proof.
  intros Hs Hf. unfold tick, focus_stage. cbn [frame feed i2c_rc waitKey].
  rewrite Hs, Hf. reflexivity.
Qed.

Lemma run_feed_idle (qs : list Q) (s : State) :
  searching s = false -> finished s = true ->
  run s (map feed qs) = {| final := s; trace := idle_trace qs; status := Pending |}.
Proof.
  intros Hs Hf. induction qs as [| q qs IH]; [reflexivity |].
  cbn [map]. rewrite run_cons. cbn [window feed].
  rewrite tick_feed_idle, IH by assumption. reflexivity.
Qed.

Lemma run_feed_commit (q : Q) (qs : list Q) (s : State) :
  searching s = false -> finished s = false -> 0 <= max_step s <= 1023 ->
  run s (map feed (q :: qs)) =
    {| final := commit s;
       trace := [EvImshow; EvSetFocus (max_step s);
                 EvI2cset (Actuator.data1 (max_step s)) (Actuator.data2 (max_step s));
                 EvPrint (MsgFocusSet (max_step s))] ++ idle_trace qs;
       status := Pending |}.
Proof.
  intros Hs Hf H. cbn [map]. rewrite run_cons. cbn [window feed].
  rewrite tick_feed_commit by assumption.
  rewrite run_feed_idle by (rewrite ?searching_commit; auto). reflexivity.
Qed.

Lemma run_feed_search (q : Q) (qs : list Q) (s : State) :
  searching s = true -> 0 <= step s ->
  run s (map feed (q :: qs)) =
    {| final := final (run (sample s q) (map feed qs));
       trace := [EvImshow; EvSetFocus (step s);
                 EvI2cset (Actuator.data1 (step s)) (Actuator.data2 (step s));
                 EvFocusMetric q] ++ trace (run (sample s q) (map feed qs));
       status := status (run (sample s q) (map feed qs)) |}.
Proof.
  intros Hs H. cbn [map]. rewrite run_cons. cbn [window feed].
  rewrite tick_feed_search by assumption. reflexivity.
Qed.

Lemma metrics_idle (qs : list Q) : metrics (idle_trace qs) = [].
Proof. induction qs; [reflexivity | exact IHqs]. Qed.

Lemma commanded_idle (qs : list Q) : commanded (idle_trace qs) = [].
Proof. induction qs; [reflexivity | exact IHqs]. Qed.

Lemma printed_idle (qs : list Q) : printed (idle_trace qs) = [].
Proof. induction qs; [reflexivity | exact IHqs]. Qed.

(** Out of the search, an undisturbed run samples nothing more and keeps
    the best position. *)
Lemma run_feed_stopped (qs : list Q) (s : State) :
  searching s = false -> Inv s ->
  let r := run s (map feed qs) in
  metrics (trace r) = [] /\ max_metric (final r) = max_metric s
  /\ max_step (final r) = max_step s /\ status r = Pending.
Proof.
  intros Hs HI. cbv zeta. destruct (finished s) eqn:Hf.
  - rewrite run_feed_idle by assumption. cbn. rewrite metrics_idle. auto.
  - destruct qs as [| q qs]; [cbn; auto |].
    unfold Inv in HI. rewrite run_feed_commit by (auto; lia).
    cbn. rewrite metrics_idle. auto.
Qed.

(** ** Tracking the best sample *)

Lemma sample_max_metric (s : State) (q : Q) :
  (max_metric s <= max_metric (sample s q))%Q /\ (q <= max_metric (sample s q))%Q.
Proof.
  cbn. destruct (Qltb (max_metric s) q) eqn:E.
  - apply Qltb_lt in E. split; [apply Qlt_le_weak; exact E | apply Qle_refl].
  - apply Qltb_ge in E. split; [apply Qle_refl | exact E].
Qed.

(** The search from any state of the invariant: the best value only grows,
    bounds every sample, and the best position is either the one the run
    started with or the position of the first sample that reached the
    final best value. *)
Lemma best_of_run (qs : list Q) :
  forall s, Inv s ->
  let r := run s (map feed qs) in
  let obs := metrics (trace r) in
  (max_metric s <= max_metric (final r))%Q
  /\ Forall (fun x => (x <= max_metric (final r))%Q) obs
  /\ obs = firstn (length obs) qs
  /\ (forall i, (i < length obs)%nat ->
        nth i (commanded (trace r)) 0 = step s + 10 * Z.of_nat i)
  /\ ((max_metric (final r) = max_metric s /\ max_step (final r) = max_step s)
      \/ exists i, (i < length obs)%nat
           /\ nth i obs 0%Q = max_metric (final r)
           /\ (max_metric s < max_metric (final r))%Q
           /\ (forall j, (j < i)%nat -> (nth j obs 0%Q < max_metric (final r))%Q)
           /\ max_step (final r) = step s + 10 * Z.of_nat i).
Proof.
  induction qs as [| q qs IH]; intros s HI; cbv zeta.
  - cbn. repeat split; try apply Qle_refl; try constructor; auto.
    intros i Hi. inversion Hi.
  - destruct (searching s) eqn:Hs.
    2:{ destruct (run_feed_stopped (q :: qs) s Hs HI) as (M & E1 & E2 & _).
        rewrite M, E1, E2. cbn.
        repeat split; try apply Qle_refl; try constructor; auto.
        intros i Hi. inversion Hi. }
    assert (H0 : 0 <= step s) by (unfold Inv in HI; lia).
    rewrite run_feed_search by assumption. cbn [final trace].
    cbn [app metrics commanded length firstn].
    pose proof (Inv_sample s q HI Hs) as HI1.
    destruct (IH (sample s q) HI1) as (A & B & C & D & E). clear IH.
    cbv zeta in *.
    set (r1 := run (sample s q) (map feed qs)) in *.
    destruct (sample_max_metric s q) as [M1 M2].
    split; [eapply Qle_trans; eassumption |].
    split; [constructor; [eapply Qle_trans; eassumption | exact B] |].
    split; [f_equal; exact C |].
    split.
    { intros [| i] Hi; cbn [nth]; [cbn; lia |].
      rewrite D by (cbn in Hi; lia). cbn [sample step]. lia. }
    cbn [sample max_metric max_step step] in E, A.
    destruct (Qltb (max_metric s) q) eqn:Hq.
    + apply Qltb_lt in Hq. right.
      destruct E as [[E1 E2] | (i & Hi & Ei & Lt & Bf & St)].
      * exists 0%nat. rewrite E1, E2. cbn [nth].
        split; [cbn; lia |]. split; [reflexivity |]. split; [exact Hq |].
        split; [intros j Hj; inversion Hj | cbn; lia].
      * exists (S i). cbn [nth].
        split; [cbn; lia |]. split; [exact Ei |].
        split; [eapply Qlt_trans; eassumption |].
        split; [intros [| j] Hj; [exact Lt | apply Bf; lia] |].
        rewrite St. cbn [sample step]. lia.
    + apply Qltb_ge in Hq.
      destruct E as [[E1 E2] | (i & Hi & Ei & Lt & Bf & St)].
      * left. split; assumption.
      * right. exists (S i). cbn [nth].
        split; [cbn; lia |]. split; [exact Ei |]. split; [exact Lt |].
        split; [intros [| j] Hj; [| apply Bf; lia] |].
        -- cbn [nth]. exact (Qle_lt_trans _ _ _ Hq Lt).
        -- rewrite St. cbn [sample step]. lia.
Qed.

Lemma Forall_prefix {A : Type} (P : A -> Prop) (n : nat) (l : list A) :
  Forall P l -> Forall P (firstn n l).
Proof.
  revert n. induction l as [| x l IH]; intros [| n] H; cbn; try constructor.
  - inversion H; assumption.
  - apply IH. inversion H; assumption.
Qed.

(** A sample that does not exceed the best value leaves the best position
    alone, whichever branch the iteration takes. *)
Lemma tick_feed_no_improvement (s : State) (q : Q) :
  (q <= max_metric s)%Q -> max_step (fst (fst (tick s (feed q)))) = max_step s.
Proof.
  intros H. apply Qltb_ge in H.
  unfold tick, focus_stage, Actuator.set_focus.
  cbn [frame feed i2c_rc waitKey].
  destruct (searching s); [| destruct (negb (finished s))];
    try destruct (negb (_ && _)); cbn; rewrite ?H; reflexivity.
Qed.

(** C1.  Feed any non-negative scores to the loop, from the initial values
    and undisturbed.  The scores the search consumed ([obs], a prefix of
    the input that holds its first score) have [max_metric] as the maximum
    of themselves and the initial 0, and [max_step] is the position
    commanded at the first of them that equals this maximum,
    [10 + 10 * i] for the index [i] of that sample.  A score that does not
    exceed [max_metric], a tie included, leaves [max_step] as it is. *)
Theorem best_is_first_maximum (qs : list Q) :
  Forall (fun q => (0 <= q)%Q) qs ->
  let r := run init (map feed qs) in
  let obs := metrics (trace r) in
  obs = firstn (length obs) qs
  /\ hd_error obs = hd_error qs
  /\ is_max (max_metric (final r)) (0%Q :: obs)
  /\ (qs <> [] ->
      exists i, first_at (max_metric (final r)) obs i
        /\ max_step (final r) = 10 + 10 * Z.of_nat i
        /\ nth i (commanded (trace r)) 0 = max_step (final r))
  /\ (qs = [] -> max_step (final r) = 10)
  /\ (forall s q, (q <= max_metric s)%Q ->
        max_step (fst (fst (tick s (feed q)))) = max_step s).
Proof.
  intros Hpos. cbv zeta.
  destruct (best_of_run qs init Inv_init) as (A & B & C & D & E).
  cbv zeta in *. cbn [init max_metric max_step step] in A, D, E.
  set (r := run init (map feed qs)) in *.
  assert (Hd : hd_error (metrics (trace r)) = hd_error qs).
  { subst r. destruct qs as [| q qs]; [reflexivity |].
    rewrite run_feed_search by (reflexivity || (cbn; lia)). reflexivity. }
  assert (Hobs : Forall (fun q => (0 <= q)%Q) (metrics (trace r))).
  { rewrite C. apply Forall_prefix. exact Hpos. }
  split; [exact C |]. split; [exact Hd |]. split; [| split; [| split]].
  - split; [| constructor; assumption].
    destruct E as [[E1 _] | (i & Hi & Ei & _)].
    + exists 0%Q. split; [left; reflexivity | rewrite E1; apply Qeq_refl].
    + exists (nth i (metrics (trace r)) 0%Q).
      split; [right; apply nth_In; exact Hi | rewrite Ei; apply Qeq_refl].
  - intros Hne.
    destruct (metrics (trace r)) as [| o obs] eqn:Eo.
    { destruct qs; [congruence | discriminate Hd]. }
    destruct E as [[E1 E2] | (i & Hi & Ei & _ & Bf & St)].
    + exists 0%nat. split; [| split].
      * split; [cbn; lia |]. split; [| intros j Hj; inversion Hj].
        cbn [nth]. rewrite E1.
        inversion B; subst. inversion Hobs; subst.
        apply Qle_antisym; [rewrite <- E1 |]; assumption.
      * rewrite E2. reflexivity.
      * rewrite D by (cbn; lia). rewrite E2. reflexivity.
    + exists i. split; [| split].
      * split; [exact Hi |]. split; [rewrite Ei; apply Qeq_refl | exact Bf].
      * exact St.
      * rewrite D by exact Hi. rewrite St. reflexivity.
  - intros ->. reflexivity.
  - exact tick_feed_no_improvement.
Qed.

Lemma best_is_first_maximum_witness :
  let qs := map inject_Z [5; 8; 3; 8; 2] in
  let r := run init (map feed qs) in
  Forall (fun q => (0 <= q)%Q) qs
  /\ metrics (trace r) = qs
  /\ is_max (max_metric (final r)) (0%Q :: metrics (trace r))
  /\ max_metric (final r) = inject_Z 8
  /\ max_step (final r) = 20.
Proof.
  cbv zeta.
  assert (P : Forall (fun q => (0 <= q)%Q) (map inject_Z [5; 8; 3; 8; 2])).
  { repeat constructor; discriminate. }
  split; [exact P |]. split; [reflexivity |].
  split; [| split; reflexivity].
  exact (proj1 (proj2 (proj2 (best_is_first_maximum _ P)))).
Defined.

(** ** Declining scores *)

Lemma run_app (a b : list Input) :
  forall s, status (run s a) = Pending ->
  run s (a ++ b) =
    {| final := final (run (final (run s a)) b);
       trace := trace (run s a) ++ trace (run (final (run s a)) b);
       status := status (run (final (run s a)) b) |}.
Proof.
  induction a as [| i a IH]; intros s H.
  - cbn. destruct (run s b); reflexivity.
  - rewrite <- app_comm_cons, !run_cons in *.
    destruct (window i); [| discriminate H].
    destruct (tick s i) as [[s' ev] [| | e]]; cbn [status] in H;
      try discriminate H.
    cbn [final trace status]. rewrite (IH s' H). cbn [final trace status].
    rewrite app_assoc. reflexivity.
Qed.

Lemma decreasing_tail (a : Q) (l : list Q) : decreasing (a :: l) -> decreasing l.
Proof. destruct l; cbn; tauto. Qed.

Lemma decreasing_prefix (k : nat) (l : list Q) :
  decreasing l -> decreasing (firstn k l).
Proof.
  revert k. induction l as [| a l IH]; intros [| k] H; cbn [firstn]; try exact I.
  specialize (IH k (decreasing_tail _ _ H)).
  destruct l as [| b l]; [destruct k; exact I |].
  destruct k as [| k]; [exact I |].
  cbn [firstn] in *. cbn [decreasing] in *. tauto.
Qed.

Lemma seq_steps (a : Z) (n : nat) :
  map (fun k => a + 10 * Z.of_nat k) (seq 0 (S n)) =
    a :: map (fun k => a + 10 + 10 * Z.of_nat k) (seq 0 n).
Proof.
  cbn [seq map]. f_equal; [lia |].
  rewrite <- seq_shift, map_map. apply map_ext. intros k. lia.
Qed.

Lemma last_cons {A : Type} (l : list A) :
  forall a d, last (a :: l) d = last l a.
Proof.
  induction l as [| b l IH]; intros a d; [reflexivity |].
  change (last (a :: b :: l) d) with (last (b :: l) d).
  rewrite (IH b d), (IH b a). reflexivity.
Qed.

(** While the scores keep falling below the last one, nothing improves:
    every iteration adds one to [dec_frames] and ten to [step]. *)
Lemma descent (qs : list Q) :
  forall s,
  decreasing (last_metric s :: qs) -> (last_metric s <= max_metric s)%Q ->
  dec_frames s + Z.of_nat (length qs) <= 6 ->
  0 <= step s -> step s + 10 * Z.of_nat (length qs) <= 1020 ->
  let r := run s (map feed qs) in
  final r =
    {| max_step := max_step s; max_metric := max_metric s;
       last_metric := last qs (last_metric s);
       dec_frames := dec_frames s + Z.of_nat (length qs);
       step := step s + 10 * Z.of_nat (length qs);
       finished := finished s |}
  /\ metrics (trace r) = qs
  /\ commanded (trace r) =
       map (fun k => step s + 10 * Z.of_nat k) (seq 0 (length qs))
  /\ status r = Pending
  /\ printed (trace r) = [].
Proof.
  induction qs as [| q qs IH]; intros s Hd Hm Hc H0 Hs; cbv zeta.
  - destruct s; cbn. rewrite !Z.add_0_r. auto.
  - cbn [length] in *. rewrite Nat2Z.inj_succ in *.
    assert (Hg : searching s = true) by (apply searching_true; lia).
    destruct Hd as [Hq Hd].
    assert (N : Qltb (max_metric s) q = false).
    { apply Qltb_ge. apply Qlt_le_weak. eapply Qlt_le_trans; eassumption. }
    assert (D : Qltb q (last_metric s) = true) by (apply Qltb_lt; exact Hq).
    rewrite run_feed_search by assumption. cbn [final trace status].
    cbn [app metrics commanded printed].
    destruct (IH (sample s q)) as (F & M & C & P & Pr).
    + exact Hd.
    + cbn. rewrite N. apply Qlt_le_weak. eapply Qlt_le_trans; eassumption.
    + cbn [sample dec_frames]. rewrite D. lia.
    + cbn [sample step]. lia.
    + cbn [sample step]. lia.
    + rewrite F, M, C, P, Pr. cbn [sample max_step max_metric last_metric dec_frames step finished].
      rewrite N, D. rewrite seq_steps.
      split; [| auto].
      f_equal; try lia. symmetry. apply last_cons.
Qed.

(** C2, as the claim states it.  On the scores 5, 8, 3, 2, 1, 0, 0 the
    count is 4 after the step-60 iteration; the last score equals the one
    before it, and the count goes back to 0 instead of up: it is not 6
    after the step-70 iteration, the guard of line 77 still holds there and
    [finished] is set nowhere along these scores. *)
Lemma decline_scenario_refuted :
  let l := map inject_Z [5; 8; 3; 2; 1; 0; 0] in
  ~ (dec_frames (after 7 l) = 6)
  /\ (nth 6 l 0%Q <= last_metric (after 6 l))%Q
  /\ dec_frames (after 6 l) = 4
  /\ dec_frames (after 7 l) = 0
  /\ searching (after 7 l) = true
  /\ forall k, finished (after k l) = false.
Proof.
  cbv zeta. split; [vm_compute; discriminate |].
  split; [vm_compute; discriminate |].
  do 3 (split; [vm_compute; reflexivity |]).
  intros k. do 8 (destruct k as [| k]; [reflexivity |]). reflexivity.
Qed.

(** C2, amended.  In a state a run can reach, with the search going on, an
    iteration adds one to [dec_frames] when its score is strictly below the
    score of the iteration before and sets it to 0 otherwise, an equal
    score included; the new score becomes [last_metric].  On the scores
    5, 8, 3, 2, 1, 0, 0, taken at the steps 10 to 70, [dec_frames] is
    0, 0, 1, 2, 3, 4, 0 after the respective iterations, [max_step] is 20
    and [max_metric] is 8, and after the step-70 iteration the search is
    still going on. *)
Theorem decline_count_strict (ins : list Input) (q : Q) :
  let s := final (run init ins) in
  let s' := fst (fst (tick s (feed q))) in
  let l := map inject_Z [5; 8; 3; 2; 1; 0; 0] in
  searching s = true ->
  ((q < last_metric s)%Q -> dec_frames s' = dec_frames s + 1)
  /\ ((last_metric s <= q)%Q -> dec_frames s' = 0)
  /\ last_metric s' = q
  /\ map (fun k => dec_frames (after k l)) (seq 1 7) = [0; 0; 1; 2; 3; 4; 0]
  /\ commanded (trace (run init (map feed l))) = [10; 20; 30; 40; 50; 60; 70]
  /\ max_step (after 7 l) = 20
  /\ max_metric (after 7 l) = inject_Z 8
  /\ searching (after 7 l) = true
  /\ finished (after 7 l) = false.
Proof.
  cbv zeta. intros Hs.
  assert (HI : Inv (final (run init ins))).
  { apply (run_preserves Inv Inv_tick). exact Inv_init. }
  rewrite tick_feed_search by (auto; unfold Inv in HI; lia).
  cbn [fst snd sample dec_frames last_metric].
  split; [intros H; apply Qltb_lt in H; rewrite H; reflexivity |].
  split; [intros H; apply Qltb_ge in H; rewrite H; reflexivity |].
  split; [reflexivity |].
  repeat split; vm_compute; reflexivity.
Qed.

Lemma decline_count_strict_witness :
  let s := final (run init (scores [5; 8])) in
  let s' := fst (fst (tick s (feed (inject_Z 3)))) in
  searching s = true
  /\ ((inject_Z 3 < last_metric s)%Q -> dec_frames s' = dec_frames s + 1).
Proof.
  cbv zeta. split; [reflexivity |].
  apply (decline_count_strict (scores [5; 8]) (inject_Z 3)). reflexivity.
Defined.

(** C3, as the claim states it.  Six strictly decreasing non-negative
    scores leave [dec_frames] at 5: [finished] is set nowhere along them,
    the guard of line 77 still holds after the sixth, and the iteration
    after it samples again whatever its frame. *)
Lemma decline_threshold_refuted :
  let l := map inject_Z [6; 5; 4; 3; 2; 1] in
  decreasing l /\ Forall (fun q => (0 <= q)%Q) l /\ length l = 6%nat
  /\ ~ (exists k, finished (after k l) = true)
  /\ dec_frames (after 6 l) = 5
  /\ searching (after 6 l) = true
  /\ forall q, fst (fst (tick (after 6 l) (feed q))) = sample (after 6 l) q.
Proof.
  cbv zeta. split; [vm_compute; repeat split |].
  split; [repeat constructor; discriminate |].
  split; [reflexivity |].
  split.
  - intros [k H]. revert H.
    do 7 (destruct k as [| k]; [discriminate |]). discriminate.
  - split; [reflexivity |]. split; [reflexivity |].
    intros q. rewrite tick_feed_search; [reflexivity | reflexivity |].
    vm_compute. discriminate.
Qed.

(** The first score of a strictly decreasing non-negative sequence of two
    scores or more is positive. *)
Lemma decreasing_head_pos (a b : Q) (l : list Q) :
  decreasing (a :: b :: l) -> Forall (fun q => (0 <= q)%Q) (a :: b :: l) ->
  (0 < a)%Q.
Proof.
  intros [H _] F. inversion F as [| ? ? _ F']. inversion F' as [| ? ? Hb _].
  eapply Qle_lt_trans; eassumption.
Qed.

(** The first sample of a search, when it is positive: it is the best. *)
Lemma sample_init_pos (q : Q) :
  (0 < q)%Q ->
  sample init q =
    {| max_step := 10; max_metric := q; last_metric := q; dec_frames := 0;
       step := 20; finished := false |}.
Proof.
  intros H. unfold sample. cbn [init max_metric last_metric max_step step dec_frames finished].
  rewrite (proj2 (Qltb_lt 0 q) H).
  rewrite (proj2 (Qltb_ge q 0) (Qlt_le_weak _ _ H)). reflexivity.
Qed.

(** C3, amended.  Feed a strictly decreasing sequence of seven or more
    non-negative scores to the loop, from the initial values and
    undisturbed.  After [k <= 7] of them [finished] is not set and
    [dec_frames] is [k - 1] (0 for [k = 0]): it reaches 6 at the seventh
    score, six falls after the first sample, not before, and the guard of
    line 77 holds up to the sixth.  With an eighth iteration, the run
    samples the first seven scores at the steps 10 to 70, then commits:
    [finished] is set, with [max_step = 10], the step of the first and
    highest sample, commanded last. *)
Theorem decline_threshold (qs more : list Q) :
  decreasing qs -> Forall (fun q => (0 <= q)%Q) qs ->
  (7 <= length qs)%nat -> (8 <= length (qs ++ more))%nat ->
  (forall k, (k <= 7)%nat ->
     finished (after k qs) = false
     /\ dec_frames (after k qs) = Z.max 0 (Z.of_nat k - 1)
     /\ searching (after k qs) = (k <? 7)%nat)
  /\ let r := run init (map feed (qs ++ more)) in
     finished (final r) = true
     /\ max_step (final r) = 10
     /\ max_metric (final r) = hd 0%Q qs
     /\ metrics (trace r) = firstn 7 qs
     /\ commanded (trace r) = [10; 20; 30; 40; 50; 60; 70; 10]
     /\ printed (trace r) = [MsgFocusSet 10].
Proof.
  intros Hd Hpos Hlen Hall.
  destruct qs as [| q0 tl]; [cbn in Hlen; lia |].
  assert (Hq0 : (0 < q0)%Q).
  { destruct tl as [| q1 tl]; [cbn in Hlen; lia |].
    eapply decreasing_head_pos; eassumption. }
  cbn [length] in Hlen.
  assert (Hdesc : forall j, (j <= 6)%nat ->
            let r := run (sample init q0) (map feed (firstn j tl)) in
            final r =
              {| max_step := 10; max_metric := q0;
                 last_metric := last (firstn j tl) q0;
                 dec_frames := Z.of_nat j; step := 20 + 10 * Z.of_nat j;
                 finished := false |}
            /\ metrics (trace r) = firstn j tl
            /\ commanded (trace r) =
                 map (fun k => 20 + 10 * Z.of_nat k) (seq 0 j)
            /\ status r = Pending
            /\ printed (trace r) = []).
  { intros j Hj. cbv zeta. rewrite (sample_init_pos q0 Hq0).
    assert (L : length (firstn j tl) = j) by (apply firstn_length_le; lia).
    match goal with
    | |- context [run ?s _] =>
        destruct (descent (firstn j tl) s) as (F & M & C & P & Pr)
    end; cbn [last_metric max_metric dec_frames step]; rewrite ?L; try lia.
    - apply (decreasing_prefix (S j) (q0 :: tl)). exact Hd.
    - apply Qle_refl.
    - rewrite F, M, C, P, Pr. cbn [max_step max_metric last_metric dec_frames step finished].
      rewrite L. auto. }
  split.
  - intros [| j] Hk; [cbn; auto |].
    unfold after. cbn [firstn].
    rewrite run_feed_search by (reflexivity || (cbn; lia)). cbn [final].
    destruct (Hdesc j ltac:(lia)) as (F & _). cbv zeta in F. rewrite F.
    cbn [finished dec_frames]. split; [reflexivity |]. split; [lia |].
    destruct (Nat.ltb_spec (S j) 7).
    + apply searching_true. cbn [dec_frames step]. lia.
    + apply searching_false. cbn [dec_frames step]. lia.
  - cbv zeta.
    assert (Hrest : (1 <= length (skipn 6 tl ++ more))%nat).
    { rewrite length_app, length_skipn.
      cbn [length app] in Hall. rewrite length_app in Hall. lia. }
    destruct (skipn 6 tl ++ more) as [| x rest] eqn:Er; [cbn in Hrest; lia |].
    assert (E : (q0 :: tl) ++ more = q0 :: (firstn 6 tl ++ x :: rest)).
    { rewrite <- Er, app_assoc, firstn_skipn. reflexivity. }
    rewrite E. clear E Er Hrest.
    rewrite run_feed_search by (reflexivity || (cbn; lia)).
    cbn [final trace].
    destruct (Hdesc 6%nat ltac:(lia)) as (F & M & C & P & Pr).
    cbv zeta in F, M, C, P, Pr.
    rewrite map_app, run_app by exact P. cbn [final trace].
    rewrite F.
    rewrite run_feed_commit by (reflexivity || (cbn; lia)).
    cbn [final trace commit finished max_step max_metric hd].
    rewrite !metrics_app, !commanded_app, !printed_app.
    cbn [app metrics commanded printed].
    rewrite M, C, Pr, metrics_idle, commanded_idle, printed_idle, app_nil_r.
    repeat split.
Qed.

Lemma decline_threshold_witness :
  let qs := map inject_Z [7; 6; 5; 4; 3; 2; 1] in
  let r := run init (map feed (qs ++ [0%Q])) in
  decreasing qs /\ Forall (fun q => (0 <= q)%Q) qs
  /\ finished (final r) = true /\ max_step (final r) = 10
  /\ commanded (trace r) = [10; 20; 30; 40; 50; 60; 70; 10].
Proof.
  cbv zeta.
  assert (D : decreasing (map inject_Z [7; 6; 5; 4; 3; 2; 1])).
  { cbn. repeat split. }
  assert (P : Forall (fun q => (0 <= q)%Q) (map inject_Z [7; 6; 5; 4; 3; 2; 1])).
  { repeat constructor; discriminate. }
  split; [exact D |]. split; [exact P |].
  destruct (decline_threshold (map inject_Z [7; 6; 5; 4; 3; 2; 1]) [0%Q] D P)
    as [_ (F & M & _ & _ & C & _)]; [cbn; lia | cbn; lia |].
  auto.
Defined.

(** ** A constant score *)

(** With the score of the iteration before coming again, and not above the
    best, nothing improves and nothing declines: only [step] moves. *)
Lemma const_sweep (c : Q) (n : nat) :
  forall s,
  last_metric s = c -> Qltb (max_metric s) c = false ->
  dec_frames s < 6 -> 0 <= step s -> step s + 10 * Z.of_nat n <= 1020 ->
  let r := run s (map feed (repeat c n)) in
  final r =
    {| max_step := max_step s; max_metric := max_metric s; last_metric := c;
       dec_frames := match n with O => dec_frames s | _ => 0 end;
       step := step s + 10 * Z.of_nat n; finished := finished s |}
  /\ commanded (trace r) = map (fun k => step s + 10 * Z.of_nat k) (seq 0 n)
  /\ status r = Pending.
Proof.
  induction n as [| n IH]; intros s Hl Hm Hd H0 Hs; cbv zeta.
  - destruct s; cbn in *. rewrite Z.add_0_r. subst c. auto.
  - rewrite Nat2Z.inj_succ in Hs.
    assert (Hg : searching s = true) by (apply searching_true; lia).
    cbn [repeat]. rewrite run_feed_search by assumption.
    cbn [final trace status app commanded].
    assert (E : sample s c =
                {| max_step := max_step s; max_metric := max_metric s;
                   last_metric := c; dec_frames := 0; step := step s + 10;
                   finished := finished s |}).
    { unfold sample. rewrite Hm, Hl, Qltb_irrefl. reflexivity. }
    rewrite E.
    match goal with
    | |- context [run ?s' _] => destruct (IH s') as (F & C & P)
    end; cbn [max_step max_metric last_metric dec_frames step finished];
      try lia; auto.
    rewrite F, C, P.
    cbn [max_step max_metric last_metric dec_frames step finished].
    rewrite seq_steps. split; [| auto].
    f_equal; [destruct n; reflexivity | lia].
Qed.

Lemma sample_init_facts (c : Q) :
  max_step (sample init c) = 10 /\ last_metric (sample init c) = c
  /\ Qltb (max_metric (sample init c)) c = false
  /\ dec_frames (sample init c) < 6 /\ step (sample init c) = 20
  /\ finished (sample init c) = false.
Proof.
  unfold sample. cbn [init max_step max_metric last_metric dec_frames step finished].
  destruct (Qltb 0 c) eqn:E0, (Qltb c 0); rewrite ?Qltb_irrefl;
    repeat split; try reflexivity; try lia; assumption.
Qed.

(** The constant score, past the end of the sweep: [k] iterations after
    the first bring [step] to 1020, the next one commits. *)
Lemma const_run_late (c : Q) (k p : nat) :
  Z.of_nat k = 100 ->
  let r := run init (map feed (repeat c (S (k + S p)))) in
  status r = Pending
  /\ step (final r) = 1020
  /\ finished (final r) = true
  /\ max_step (final r) = 10
  /\ commanded (trace r) =
       map (fun j => 10 + 10 * Z.of_nat j) (seq 0 (S k)) ++ [10].
Proof.
  intros Hk. cbv zeta.
  destruct (sample_init_facts c) as (S1 & S2 & S3 & S4 & S5 & S6).
  cbn [repeat]. rewrite run_feed_search by (reflexivity || (cbn; lia)).
  cbn [final trace status app commanded].
  rewrite repeat_app, map_app.
  destruct (const_sweep c k (sample init c)) as (F & C & P);
    [assumption | assumption | assumption | lia | lia |].
  cbv zeta in F, C, P.
  rewrite run_app by exact P. cbn [final trace status].
  rewrite F. cbn [repeat].
  rewrite run_feed_commit
    by (reflexivity || (cbn [max_step]; lia)
        || (apply searching_false; cbn [step]; lia)).
  cbn [final trace status commit max_step step finished].
  rewrite commanded_app, C. cbn [app commanded].
  rewrite commanded_idle, S1, S5, seq_steps.
  change (10 + 10) with 20. cbn [init step].
  split; [reflexivity |]. split; [lia |]. split; [reflexivity |].
  split; reflexivity.
Qed.

(** The run on a constant score, iteration by iteration. *)
Lemma const_run (c : Q) (n : nat) :
  let r := run init (map feed (repeat c n)) in
  status r = Pending
  /\ step (final r) = Z.min 1020 (10 + 10 * Z.of_nat n)
  /\ finished (final r) = (101 <? n)%nat
  /\ max_step (final r) = 10
  /\ commanded (trace r) =
       map (fun k => 10 + 10 * Z.of_nat k) (seq 0 (Nat.min n 101))
       ++ (if (101 <? n)%nat then [10] else []).
Proof.
  cbv zeta. destruct (Nat.ltb_spec 101 n) as [Hm | Hm].
  - replace n with (S (100 + S (n - 102)))%nat by lia.
    destruct (const_run_late c 100 (n - 102) eq_refl) as (H1 & H2 & H3 & H4 & H5).
    cbv zeta in H1, H2, H3, H4, H5.
    rewrite H1, H2, H3, H4, H5.
    replace (Nat.min (S (100 + S (n - 102))) 101) with 101%nat by lia.
    split; [reflexivity |]. split; [lia |]. split; [reflexivity |].
    split; reflexivity.
  - destruct n as [| m]; [cbn; auto |].
    destruct (sample_init_facts c) as (S1 & S2 & S3 & S4 & S5 & S6).
    cbn [repeat]. rewrite run_feed_search by (reflexivity || (cbn; lia)).
    cbn [final trace status app commanded].
    destruct (const_sweep c m (sample init c)) as (F & C & P);
      [assumption | assumption | assumption | lia | lia |].
    cbv zeta in F, C, P. rewrite F, C, P.
    cbn [max_step step finished]. rewrite S1, S5, S6.
    rewrite Nat.min_l by lia. rewrite seq_steps, app_nil_r.
    change (10 + 10) with 20. cbn [init step].
    split; [reflexivity |]. split; [lia |].
    split; [reflexivity |]. split; reflexivity.
Qed.

(** C4.  With the same score [c] in every frame, from the initial values
    and undisturbed, the loop sweeps the steps 10, 20, ..., 1010 in its
    first 101 iterations; the iteration that finds [step] at 1020 commits
    instead ([finished] is set from the 102nd iteration on, and not
    before), to [max_step = 10].  No [set_focus] call of the run has an
    argument above 1020. *)
Theorem safety_bound (c : Q) (n : nat) :
  let r := run init (repeat (feed c) n) in
  status r = Pending
  /\ step (final r) = Z.min 1020 (10 + 10 * Z.of_nat n)
  /\ finished (final r) = (101 <? n)%nat
  /\ max_step (final r) = 10
  /\ commanded (trace r) =
       map (fun k => 10 + 10 * Z.of_nat k) (seq 0 (Nat.min n 101))
       ++ (if (101 <? n)%nat then [10] else [])
  /\ Forall (fun a => a <= 1020) (commanded (trace r)).
Proof.
  cbv zeta.
  destruct (run_commanded (repeat (feed c) n) init Inv_init) as [B _].
  rewrite <- map_repeat in *.
  destruct (const_run c n) as (H1 & H2 & H3 & H4 & H5).
  repeat (split; [assumption |]).
  eapply Forall_impl; [| exact B]. cbv beta. intros a Ha. lia.
Qed.

(** ** A bus failure *)

(** When the commit of line 96 finds the bus down, in any state of the
    invariant: the exception of [i2cset] leaves the iteration uncaught,
    after the write was tried and before anything is printed. *)
Lemma tick_commit_failure (s : State) (q : Q) (rc k : Z) :
  searching s = false -> finished s = false -> Inv s -> rc <> 0 ->
  tick s {| window := true; frame := Some q; i2c_rc := rc; waitKey := k |} =
    (s,
     [EvImshow; EvSetFocus (max_step s);
      EvI2cset (Actuator.data1 (max_step s)) (Actuator.data2 (max_step s))],
     Uncaught (CalledProcessError rc (Actuator.data1 (max_step s))
                 (Actuator.data2 (max_step s)))).
Proof.
  intros Hs Hf HI Hrc. unfold Inv in HI.
  unfold tick, focus_stage. cbn [frame i2c_rc waitKey]. rewrite Hs, Hf.
  cbn [negb]. rewrite ActuatorFacts.set_focus_in_range by lia.
  apply Z.eqb_neq in Hrc. rewrite Hrc. reflexivity.
Qed.

(** C8 (the code departs from the claim).  With the bus down ([i2cset]
    exits with status 1):
    - in the sweep, here at the first iteration, line 81 prints the error
      and the loop is left in order: the camera is released;
    - at the commit, here after the scores 7, 6, 5, 4, 3, 2, 1 have brought
      [dec_frames] to 6, the exception of [set_focus(max_step)] is caught
      nowhere: the run dies of it with nothing printed by the script, the
      camera not released and [finished] not set. *)
Theorem commit_failure_uncaught :
  let bus_down := {| window := true; frame := Some 0%Q; i2c_rc := 1; waitKey := -1 |} in
  let sweep := run init [bus_down] in
  let r := run init (scores [7; 6; 5; 4; 3; 2; 1] ++ [bus_down]) in
  status sweep = Exited
  /\ printed (trace sweep) = [MsgI2cError (CalledProcessError 1 0 160)]
  /\ last (trace sweep) EvImshow = EvRelease
  /\ status r = Crashed (CalledProcessError 1 0 160)
  /\ printed (trace r) = []
  /\ last (trace r) EvImshow = EvI2cset 0 160
  /\ commanded (trace r) = [10; 20; 30; 40; 50; 60; 70; 10]
  /\ finished (final r) = false.
Proof.
  cbv zeta. repeat split; vm_compute; reflexivity.
Qed.

(** * Further properties *)

(** ** The register word *)

Lemma word_of_bytes (s : Z) :
  Actuator.data1 s * 256 + Actuator.data2 s = 16 * (s mod 1024).
Proof.
  rewrite ActuatorFacts.data1_spec, ActuatorFacts.data2_spec.
  assert (E : (s mod 1024) mod 16 = s mod 16).
  { apply Z.mod_mod_divide. exists 64. reflexivity. }
  pose proof (Z.div_mod (s mod 1024) 16 ltac:(lia)) as D.
  rewrite E in D. lia.
Qed.



(** X2.  Two integers get the same two bytes exactly when they agree
    modulo 1024: without the range check of line 16 a position outside
    0..1023 would be sent as the position it is congruent to. *)
Theorem bytes_alias (s t : Z) :
  bytes_of s = bytes_of t <-> s mod 1024 = t mod 1024.
Proof.
  unfold bytes_of. split.
  - intros E. injection E as E1 E2.
    pose proof (word_of_bytes s) as Ws. pose proof (word_of_bytes t) as Wt.
    rewrite E1, E2 in Ws. lia.
  - intros E.
    rewrite !ActuatorFacts.data1_spec, !ActuatorFacts.data2_spec.
    assert (F : forall x, x mod 16 = (x mod 1024) mod 16).
    { intros x. symmetry. apply Z.mod_mod_divide. exists 64. reflexivity. }
    rewrite (F s), (F t), E. reflexivity.
Qed.

(** ** What reaches the bus *)

Lemma tick_writes (s : State) (i : Input) :
  Inv s ->
  writes (snd (fst (tick s i))) = map bytes_of (commanded (snd (fst (tick s i)))).
Proof.
  intros HI. unfold Inv in HI.
  break_tick; try reflexivity;
    match goal with
    | H : negb ((0 <=? ?a) && (?a <=? Actuator.MAX_STEP)) = true |- _ =>
        rewrite negb_true_iff, <- not_true_iff_false,
          ActuatorFacts.in_range_iff in H; lia
    end.
Qed.

Lemma run_step (P : State -> list Event -> Prop) :
  (forall s, P s []) ->
  (forall s, P s [EvRelease]) ->
  (forall s i, Inv s -> P s (snd (fst (tick s i)))) ->
  (forall s i, Inv s -> P s (snd (fst (tick s i)) ++ [EvRelease])) ->
  (forall s i t, Inv s -> P (fst (fst (tick s i))) t ->
     P s (snd (fst (tick s i)) ++ t)) ->
  forall ins s, Inv s -> P s (trace (run s ins)).
Proof.
  intros P0 P1 Pc Ps Pg. induction ins as [| i rest IH]; intros s HI.
  - apply P0.
  - rewrite run_cons. destruct (window i); [| apply P1].
    pose proof (Inv_tick s i HI) as H1.
    pose proof (Pc s i HI) as H2. pose proof (Ps s i HI) as H3.
    pose proof (Pg s i) as H4.
    destruct (tick s i) as [[s' ev] [| | e]]; cbn [fst snd] in *;
      cbn [final trace status]; auto.
Qed.

(** X3.  In every run from the initial values, the transport writes are,
    in order, the byte pairs of the arguments of the [set_focus] calls:
    every call of the loop writes once, nothing else writes, and reading a
    written pair back gives a multiple of 10 between 10 and 1020. *)
Theorem writes_are_commands (ins : list Input) :
  let r := run init ins in
  writes (trace r) = map bytes_of (commanded (trace r))
  /\ Forall (fun w => 10 <= Actuator.decode (fst w) (snd w) <= 1020
                      /\ Actuator.decode (fst w) (snd w) mod 10 = 0)
       (writes (trace r)).
Proof.
  cbv zeta.
  assert (W : forall ins s, Inv s ->
            writes (trace (run s ins)) = map bytes_of (commanded (trace (run s ins)))
            /\ Forall (fun a => 10 <= a <= 1020 /\ a mod 10 = 0)
                 (commanded (trace (run s ins)))).
  { apply (run_step (fun s t => writes t = map bytes_of (commanded t)
             /\ Forall (fun a => 10 <= a <= 1020 /\ a mod 10 = 0) (commanded t))).
    - intros; split; [reflexivity | constructor].
    - intros; split; [reflexivity | constructor].
    - intros s i HI. split; [apply tick_writes; exact HI |].
      apply Forall_forall. intros a Ha. unfold Inv in HI.
      destruct (tick_commanded s i a Ha); subst a; lia.
    - intros s i HI. rewrite writes_app, commanded_app, map_app. cbn.
      rewrite !app_nil_r. split; [apply tick_writes; exact HI |].
      apply Forall_forall. intros a Ha. unfold Inv in HI.
      destruct (tick_commanded s i a Ha); subst a; lia.
    - intros s i t HI [E F]. rewrite writes_app, commanded_app, map_app, E.
      rewrite (tick_writes s i HI). split; [reflexivity |].
      apply Forall_app. split; [| exact F].
      apply Forall_forall. intros a Ha. unfold Inv in HI.
      destruct (tick_commanded s i a Ha); subst a; lia. }
  destruct (W ins init Inv_init) as [E F]. split; [exact E |].
  rewrite E. apply Forall_map. eapply Forall_impl; [| exact F].
  cbv beta. intros a [Ha Hm]. unfold bytes_of. cbn [fst snd].
  rewrite ActuatorFacts.decode_data by lia. auto.
Qed.

Lemma tick_one_write (s : State) (i : Input) :
  (length (writes (snd (fst (tick s i)))) <= 1)%nat
  /\ (length (metrics (snd (fst (tick s i)))) <= length (writes (snd (fst (tick s i)))))%nat.
Proof. break_tick; cbn; lia. Qed.

(** X4.  From any state, a run writes to the bus at most once per
    iteration, and samples the sharpness only in iterations that wrote:
    there are never more writes than inputs, nor more samples than
    writes. *)
Theorem one_write_per_iteration (s : State) (ins : list Input) :
  (length (metrics (trace (run s ins))) <= length (writes (trace (run s ins))))%nat
  /\ (length (writes (trace (run s ins))) <= length ins)%nat.
Proof.
  revert s. induction ins as [| i rest IH]; intros s; [cbn; lia |].
  rewrite run_cons. destruct (window i); [| cbn; lia].
  pose proof (tick_one_write s i) as T.
  destruct (tick s i) as [[s' ev] [| | e]]; cbn [fst snd] in T;
    cbn [final trace status length].
  - rewrite metrics_app, writes_app, !length_app.
    specialize (IH s'). lia.
  - rewrite metrics_app, writes_app, !length_app. cbn. lia.
  - lia.
Qed.

(** ** How a run ends *)

Lemma releases_app (t u : list Event) : releases (t ++ u) = (releases t + releases u)%nat.
Proof.
  induction t as [| e t IH]; [reflexivity |].
  destruct e; cbn; rewrite IH; reflexivity.
Qed.

Lemma tick_no_release (s : State) (i : Input) :
  releases (snd (fst (tick s i))) = 0%nat.
Proof. break_tick; reflexivity. Qed.

(** X5.  From any state, the camera is released exactly in the runs that
    left the loop ([break], or the window closed): once, as the last
    thing they do.  A run whose inputs ran out, or that died of an
    exception, has not released it. *)
Theorem release_iff_exited (s : State) (ins : list Input) :
  let r := run s ins in
  releases (trace r) = (match status r with Exited => 1 | _ => 0 end)%nat
  /\ match status r with
     | Exited => last (trace r) EvImshow = EvRelease
     | _ => True
     end.
Proof.
  cbv zeta. revert s. induction ins as [| i rest IH]; intros s; [cbn; auto |].
  rewrite run_cons. destruct (window i); [| cbn; auto].
  pose proof (tick_no_release s i) as T.
  destruct (tick s i) as [[s' ev] [| | e]]; cbn [fst snd] in T;
    cbn [final trace status].
  - rewrite releases_app, T. destruct (IH s') as [R L]. split; [exact R |].
    destruct (status (run s' rest)); try exact I.
    destruct (trace (run s' rest)) as [| e t] eqn:E; [discriminate R |].
    rewrite <- L. clear. induction ev as [| a ev IHe]; [reflexivity |].
    cbn [app]. rewrite <- IHe.
    destruct (ev ++ e :: t) eqn:E'; [destruct ev; discriminate | reflexivity].
  - rewrite releases_app, T. split; [reflexivity |]. apply last_last.
  - rewrite T. auto.
Qed.

Lemma tick_crash (s : State) (i : Input) (e : Exn) :
  Inv s -> snd (tick s i) = Uncaught e ->
  fst (fst (tick s i)) = s /\ searching s = false /\ finished s = false
  /\ i2c_rc i <> 0
  /\ e = CalledProcessError (i2c_rc i) (Actuator.data1 (max_step s))
           (Actuator.data2 (max_step s)).
Proof.
  intros HI. unfold Inv in HI.
  break_tick; try discriminate;
    try match goal with
    | H : negb ((0 <=? ?a) && (?a <=? Actuator.MAX_STEP)) = true |- _ =>
        rewrite negb_true_iff, <- not_true_iff_false,
          ActuatorFacts.in_range_iff in H; lia
    end.
  intros E. injection E as <-.
  split; [reflexivity |]. split; [reflexivity |].
  split; [apply negb_true_iff; assumption |].
  split; [apply Z.eqb_neq; assumption | reflexivity].
Qed.

(** X6.  Of the two exceptions [set_focus] raises itself, in a run from
    the initial values: the [ValueError] of the range check never ends a
    run, and the [CalledProcessError] of a failed [i2cset] ends a run
    uncaught only when it comes from the commit of line 96: the search was
    over, [finished] was not yet set, and the exception carries a non-zero
    exit status and the two bytes of [max_step].  Raised in the sweep, it
    never escapes. *)
Theorem bus_error_escapes_at_commit (ins : list Input) :
  let r := run init ins in
  status r <> Crashed ValueError
  /\ forall rc d1 d2,
       status r = Crashed (CalledProcessError rc d1 d2) ->
       searching (final r) = false /\ finished (final r) = false
       /\ rc <> 0
       /\ d1 = Actuator.data1 (max_step (final r))
       /\ d2 = Actuator.data2 (max_step (final r)).
Proof.
  cbv zeta.
  assert (G : forall ins s e, Inv s -> status (run s ins) = Crashed e ->
            searching (final (run s ins)) = false
            /\ finished (final (run s ins)) = false
            /\ exists rc, rc <> 0
                 /\ e = CalledProcessError rc
                         (Actuator.data1 (max_step (final (run s ins))))
                         (Actuator.data2 (max_step (final (run s ins))))).
  { clear ins. induction ins as [| i rest IH]; intros s e HI; [discriminate |].
    rewrite run_cons. destruct (window i); [| discriminate].
    pose proof (Inv_tick s i HI) as H1.
    pose proof (tick_crash s i) as H2.
    destruct (tick s i) as [[s' ev] [| | e']]; cbn [fst snd] in *;
      cbn [final trace status]; try discriminate.
    - apply IH. exact H1.
    - intros E. injection E as ->.
      destruct (H2 e HI eq_refl) as (-> & Hs & Hf & Hrc & He).
      split; [exact Hs |]. split; [exact Hf |]. exists (i2c_rc i). auto. }
  split.
  - intros E. destruct (G ins init _ Inv_init E) as (_ & _ & rc & _ & D).
    discriminate D.
  - intros rc d1 d2 E.
    destruct (G ins init _ Inv_init E) as (Hs & Hf & rc' & Hrc & D).
    injection D as -> -> ->. auto.
Qed.

Lemma bus_error_escapes_at_commit_witness :
  let bus_down := {| window := true; frame := Some 0%Q; i2c_rc := 1; waitKey := -1 |} in
  let r := run init (scores [7; 6; 5; 4; 3; 2; 1] ++ [bus_down]) in
  status r = Crashed (CalledProcessError 1 0 160)
  /\ searching (final r) = false /\ finished (final r) = false.
Proof.
  cbv zeta. split; [reflexivity |].
  pose proof (proj2 (bus_error_escapes_at_commit
                (scores [7; 6; 5; 4; 3; 2; 1]
                 ++ [{| window := true; frame := Some 0%Q; i2c_rc := 1; waitKey := -1 |}]))
                1 0 160 eq_refl) as (Hs & Hf & _).
  split; assumption.
Defined.

(** ** The keyboard *)

Lemma low_byte (k : Z) : Z.land k 0xFF = k mod 256.
Proof. change 0xFF with (Z.ones 8). rewrite Z.land_ones by lia. reflexivity. Qed.

(** An iteration that gets its frame and finds the bus working reaches the
    keyboard, in every state of the invariant. *)
Lemma tick_reaches_keys (s : State) (i : Input) (q : Q) :
  Inv s -> frame i = Some q -> i2c_rc i = 0 ->
  exists s1 ev1,
    focus_stage s q 0 = (s1, ev1, Go)
    /\ tick s i = (fst (fst (key_stage s1 (waitKey i))),
                  EvImshow :: ev1 ++ snd (fst (key_stage s1 (waitKey i))),
                  snd (key_stage s1 (waitKey i))).
Proof.
  intros HI Hf Hrc. unfold Inv in HI. unfold tick. rewrite Hf, Hrc.
  unfold focus_stage.
  destruct (searching s) eqn:Hs; [| destruct (negb (finished s))].
  - apply searching_true in Hs.
    rewrite ActuatorFacts.set_focus_in_range by lia. cbn [Z.eqb].
    eexists _, _. split; [reflexivity |].
    destruct (key_stage _ _) as [[s2 ev2] sg]. reflexivity.
  - rewrite ActuatorFacts.set_focus_in_range by lia. cbn [Z.eqb].
    eexists _, _. split; [reflexivity |].
    destruct (key_stage _ _) as [[s2 ev2] sg]. reflexivity.
  - eexists _, _. split; [reflexivity |].
    destruct (key_stage _ _) as [[s2 ev2] sg]. reflexivity.
Qed.

(** X7.  The restart key ([r] or Enter, read in the low byte of the key
    code), in an iteration that got its frame and found the bus working,
    makes the rest of the run the run from the initial values: same final
    variables, same status, and the trace continues after the restart
    message with the trace of a fresh start. *)
Theorem restart_is_fresh_start (ins rest : list Input) (i : Input) (q : Q) :
  status (run init ins) = Pending ->
  window i = true -> frame i = Some q -> i2c_rc i = 0 ->
  waitKey i mod 256 = 114 \/ waitKey i mod 256 = 10 ->
  let r := run init (ins ++ i :: rest) in
  final r = final (run init rest)
  /\ status r = status (run init rest)
  /\ exists pre, trace r = pre ++ EvPrint MsgRestart :: trace (run init rest).
Proof.
  intros Hp Hw Hf Hrc Hk. cbv zeta.
  rewrite run_app by exact Hp. cbn [final trace status].
  assert (HI : Inv (final (run init ins))).
  { apply (run_preserves Inv Inv_tick). exact Inv_init. }
  destruct (tick_reaches_keys _ i q HI Hf Hrc) as (s1 & ev1 & _ & T).
  rewrite run_cons, Hw, T.
  unfold key_stage. cbv zeta. rewrite low_byte.
  assert (K : (waitKey i mod 256 =? 27) = false)
    by (apply Z.eqb_neq; lia).
  assert (R : (waitKey i mod 256 =? 114) || (waitKey i mod 256 =? 10) = true).
  { apply orb_true_iff. rewrite !Z.eqb_eq. exact Hk. }
  rewrite K, R. cbn [fst snd final trace status].
  split; [reflexivity |]. split; [reflexivity |].
  exists (trace (run init ins) ++ EvImshow :: ev1).
  rewrite <- !app_assoc. cbn [app]. rewrite <- app_assoc. reflexivity.
Qed.

Lemma restart_is_fresh_start_witness :
  let i := {| window := true; frame := Some 0%Q; i2c_rc := 0; waitKey := 114 |} in
  final (run init (scores [5; 8] ++ i :: scores [3])) = final (run init (scores [3])).
Proof.
  cbv zeta.
  apply (restart_is_fresh_start (scores [5; 8]) (scores [3])
           {| window := true; frame := Some 0%Q; i2c_rc := 0; waitKey := 114 |} 0%Q);
    try reflexivity.
  left. reflexivity.
Defined.

(** X8.  The Esc key (27 in the low byte of the key code), in an
    iteration that got its frame and found the bus working, ends the run
    there: the loop is left, the camera released, no restart happens and
    the inputs after it are not looked at. *)
Theorem escape_stops (ins rest : list Input) (i : Input) (q : Q) :
  status (run init ins) = Pending ->
  window i = true -> frame i = Some q -> i2c_rc i = 0 ->
  waitKey i mod 256 = 27 ->
  let r := run init (ins ++ i :: rest) in
  status r = Exited
  /\ last (trace r) EvImshow = EvRelease
  /\ r = run init (ins ++ [i]).
Proof.
  intros Hp Hw Hf Hrc Hk. cbv zeta.
  rewrite !run_app by exact Hp.
  assert (HI : Inv (final (run init ins))).
  { apply (run_preserves Inv Inv_tick). exact Inv_init. }
  destruct (tick_reaches_keys _ i q HI Hf Hrc) as (s1 & ev1 & _ & T).
  rewrite !run_cons, Hw, T.
  unfold key_stage. cbv zeta. rewrite low_byte, Hk.
  cbn [Z.eqb Pos.eqb fst snd final trace status].
  split; [reflexivity |]. split; [| reflexivity].
  rewrite app_assoc. apply last_last.
Qed.

Lemma escape_stops_witness :
  let i := {| window := true; frame := Some 0%Q; i2c_rc := 0; waitKey := 27 + 256 |} in
  status (run init (scores [5; 8] ++ i :: scores [3])) = Exited.
Proof.
  cbv zeta.
  apply (escape_stops (scores [5; 8]) (scores [3])
           {| window := true; frame := Some 0%Q; i2c_rc := 0; waitKey := 27 + 256 |} 0%Q);
    reflexivity.
Defined.

(** ** The length of a search *)

Lemma tick_step_counts (s : State) (i : Input) :
  restarts i = false ->
  step (fst (fst (tick s i)))
    = step s + 10 * Z.of_nat (length (metrics (snd (fst (tick s i))))).
Proof.
  unfold restarts, key_of. intros Hr.
  break_tick; cbn; try lia; congruence.
Qed.

(** X9.  In a run from the initial values in which the restart key is
    never pressed, whatever else happens, [step] is 10 plus ten times the
    number of sharpness samples taken; so a search session takes 101
    samples at most. *)
Theorem step_counts_samples (ins : list Input) :
  no_restart ins = true ->
  let r := run init ins in
  step (final r) = 10 + 10 * Z.of_nat (length (metrics (trace r)))
  /\ (length (metrics (trace r)) <= 101)%nat.
Proof.
  intros Hn. cbv zeta.
  assert (G : forall ins s, no_restart ins = true ->
            step (final (run s ins))
              = step s + 10 * Z.of_nat (length (metrics (trace (run s ins))))).
  { clear. induction ins as [| i rest IH]; intros s Hn; [cbn; lia |].
    cbn [no_restart forallb] in Hn. apply andb_true_iff in Hn.
    destruct Hn as [Hi Hr]. apply negb_true_iff in Hi.
    rewrite run_cons. destruct (window i); [| cbn; lia].
    pose proof (tick_step_counts s i Hi) as T.
    destruct (tick s i) as [[s' ev] [| | e]]; cbn [fst snd] in T;
      cbn [final trace status].
    - rewrite metrics_app, length_app, (IH s' Hr), T. lia.
    - rewrite metrics_app, length_app, T. cbn [metrics length]. lia.
    - exact T. }
  pose proof (G ins init Hn) as E. cbn [init step] in E.
  split; [exact E |].
  assert (HI : Inv (final (run init ins))).
  { apply (run_preserves Inv Inv_tick). exact Inv_init. }
  unfold Inv in HI. lia.
Qed.

Lemma step_counts_samples_witness :
  let r := run init (scores [5; 8; 3]) in
  step (final r) = 10 + 10 * Z.of_nat (length (metrics (trace r))).
Proof.
  cbv zeta. apply (step_counts_samples (scores [5; 8; 3])). reflexivity.
Defined.

(** An undisturbed run from a state in which the search is on or has just
    ended: positions swept in order, then the commit, if a frame is left
    for it. *)
Lemma session_shape (qs : list Q) :
  forall s, Inv s -> finished s = false ->
  let r := run s (map feed qs) in
  let k := length (metrics (trace r)) in
  commanded (trace r)
    = sweep_from (step s) k ++ (if finished (final r) then [max_step (final r)] else [])
  /\ printed (trace r)
     = (if finished (final r) then [MsgFocusSet (max_step (final r))] else [])
  /\ finished (final r) = (k <? length qs)%nat
  /\ 10 * Z.of_nat k <= 1020 - step s
  /\ metrics (trace r) = firstn k qs
  /\ status r = Pending.
Proof.
  induction qs as [| q qs IH]; intros s HI Hf; cbv zeta.
  - cbn [map run final trace status metrics commanded printed length].
    rewrite Hf. unfold Inv in HI. repeat split; try reflexivity. lia.
  - destruct (searching s) eqn:Hs.
    + assert (H0 : 0 <= step s) by (unfold Inv in HI; lia).
      rewrite run_feed_search by assumption. cbn [final trace status].
      cbn [app metrics commanded printed length firstn].
      destruct (IH (sample s q) (Inv_sample s q HI Hs) Hf)
        as (C & P & F & B & M & St).
      cbv zeta in C, P, F, B, M, St.
      rewrite C, P, F, St. unfold sweep_from. rewrite seq_steps.
      cbn [sample step] in *.
      split; [reflexivity |]. split; [reflexivity |].
      split; [reflexivity |]. split; [lia |].
      split; [f_equal; exact M | reflexivity].
    + unfold Inv in HI. rewrite run_feed_commit by (auto; lia).
      cbn [final trace status commit finished max_step].
      rewrite !metrics_app, !commanded_app, !printed_app.
      cbn [app metrics commanded printed].
      rewrite metrics_idle, commanded_idle, printed_idle.
      cbn [length app]. repeat split; try reflexivity. lia.
Qed.

(** X10.  In an undisturbed run from the initial values, whatever the
    scores: the [set_focus] calls are the sweep 10, 20, ..., one per
    sample, followed by the commit to [max_step] exactly when [finished]
    is set; the only message is then the "focus set" message, carrying
    [max_step]; and [finished] is set exactly when a frame was left
    unsampled. *)
Theorem undisturbed_session (qs : list Q) :
  let r := run init (map feed qs) in
  let k := length (metrics (trace r)) in
  commanded (trace r)
    = sweep_from 10 k ++ (if finished (final r) then [max_step (final r)] else [])
  /\ printed (trace r)
     = (if finished (final r) then [MsgFocusSet (max_step (final r))] else [])
  /\ finished (final r) = (k <? length qs)%nat
  /\ metrics (trace r) = firstn k qs
  /\ status r = Pending.
Proof.
  cbv zeta.
  destruct (session_shape qs init Inv_init eq_refl) as (C & P & F & _ & M & St).
  auto.
Qed.

(** X11.  An undisturbed run from the initial values over 102 frames or
    more has committed, whatever the scores, noise included: the search
    cannot outlast the sweep. *)
Theorem search_terminates (qs : list Q) :
  (102 <= length qs)%nat ->
  let r := run init (map feed qs) in
  finished (final r) = true
  /\ (length (metrics (trace r)) <= 101)%nat
  /\ last (commanded (trace r)) 0 = max_step (final r).
Proof.
  intros Hl. cbv zeta.
  destruct (session_shape qs init Inv_init eq_refl) as (C & _ & F & B & _).
  cbv zeta in C, F, B. cbn [init step] in B.
  assert (K : (length (metrics (trace (run init (map feed qs)))) <= 101)%nat) by lia.
  assert (Fi : finished (final (run init (map feed qs))) = true).
  { rewrite F. apply Nat.ltb_lt. lia. }
  split; [exact Fi |]. split; [exact K |].
  rewrite C, Fi. apply last_last.
Qed.

Lemma search_terminates_witness :
  (102 <= length (repeat 0%Q 102))%nat
  /\ finished (final (run init (map feed (repeat 0%Q 102)))) = true.
Proof.
  assert (H : (102 <= length (repeat 0%Q 102))%nat)
    by (rewrite repeat_length; apply le_n).
  split; [exact H |]. apply (search_terminates (repeat 0%Q 102) H).
Defined.

(** ** The decline counter and the history of scores *)

Lemma run_feed_stopped_fields (qs : list Q) (s : State) :
  searching s = false -> Inv s ->
  let r := run s (map feed qs) in
  metrics (trace r) = [] /\ dec_frames (final r) = dec_frames s
  /\ last_metric (final r) = last_metric s /\ step (final r) = step s.
Proof.
  intros Hs HI. cbv zeta. destruct (finished s) eqn:Hf.
  - rewrite run_feed_idle by assumption. cbn. rewrite metrics_idle. auto.
  - destruct qs as [| q qs]; [cbn; auto |].
    unfold Inv in HI. rewrite run_feed_commit by (auto; lia).
    cbn. rewrite metrics_idle. auto.
Qed.

Lemma drops_history (qs : list Q) :
  forall s t, Inv s -> dec_frames s = drops (last_metric s :: t) ->
  let r := run s (map feed qs) in
  let h := rev (metrics (trace r)) ++ last_metric s :: t in
  dec_frames (final r) = drops h /\ last_metric (final r) = hd 0%Q h.
Proof.
  induction qs as [| q qs IH]; intros s t HI Hd; cbv zeta.
  - cbn. auto.
  - destruct (searching s) eqn:Hs.
    2:{ destruct (run_feed_stopped_fields (q :: qs) s Hs HI) as (M & D & L & _).
        cbv zeta in M, D, L. rewrite M, D, L. cbn. auto. }
    assert (H0 : 0 <= step s) by (unfold Inv in HI; lia).
    rewrite run_feed_search by assumption. cbn [final trace].
    cbn [app metrics rev]. rewrite <- app_assoc. cbn [app].
    apply (IH (sample s q) (last_metric s :: t) (Inv_sample s q HI Hs)).
    cbn [sample dec_frames last_metric]. rewrite Hd. reflexivity.
Qed.

(** X12.  In an undisturbed run from the initial values, [dec_frames] is
    the number of latest samples, in a row, that fell strictly below the
    score before them (the first sample is compared with the initial 0),
    and [last_metric] is the latest sample.  So before the sweep is over,
    the search has stopped exactly when the last six samples each fell
    below the one before. *)
Theorem dec_frames_is_trailing_drops (qs : list Q) :
  let r := run init (map feed qs) in
  let h := rev (metrics (trace r)) ++ [0%Q] in
  dec_frames (final r) = drops h
  /\ last_metric (final r) = hd 0%Q h
  /\ (step (final r) < 1020 -> (searching (final r) = false <-> drops h = 6)).
Proof.
  cbv zeta.
  destruct (drops_history qs init [] Inv_init eq_refl) as [D L].
  cbv zeta in D, L. cbn [init last_metric] in D, L.
  split; [exact D |]. split; [exact L |].
  intros Hst. rewrite <- D, searching_false.
  assert (HI : Inv (final (run init (map feed qs)))).
  { apply (run_preserves Inv Inv_tick). exact Inv_init. }
  unfold Inv in HI. lia.
Qed.

Lemma dec_frames_is_trailing_drops_witness :
  let r := run init (scores [9; 7; 6; 5; 4; 3; 2; 1]) in
  step (final r) < 1020 /\ searching (final r) = false
  /\ drops (rev (metrics (trace r)) ++ [0%Q]) = 6.
Proof.
  cbv zeta. split; [reflexivity |]. split; [reflexivity |].
  apply (proj2 (proj2 (dec_frames_is_trailing_drops
                         (map inject_Z [9; 7; 6; 5; 4; 3; 2; 1]))));
    reflexivity.
Defined.

(** ** Scores that never fall *)

Lemma nondecreasing_tail (a : Q) (l : list Q) :
  nondecreasing (a :: l) -> nondecreasing l.
Proof. destruct l; cbn; tauto. Qed.

(** While no score is below the one before, the counter stays at 0, the
    best value is the latest score and only [step] moves. *)
Lemma ascent (qs : list Q) :
  forall s,
  nondecreasing (last_metric s :: qs) -> (max_metric s == last_metric s)%Q ->
  dec_frames s < 6 -> 0 <= step s ->
  step s + 10 * Z.of_nat (length qs) <= 1020 ->
  let r := run s (map feed qs) in
  metrics (trace r) = qs
  /\ dec_frames (final r) = match qs with [] => dec_frames s | _ => 0 end
  /\ step (final r) = step s + 10 * Z.of_nat (length qs)
  /\ finished (final r) = finished s
  /\ last_metric (final r) = last qs (last_metric s)
  /\ (max_metric (final r) == last qs (last_metric s))%Q
  /\ status r = Pending.
Proof.
  induction qs as [| q qs IH]; intros s Hn Hm Hd H0 Hs; cbv zeta.
  - cbn [map run final trace status metrics length last Z.of_nat].
    rewrite Z.mul_0_r, Z.add_0_r. auto 10.
  - cbn [length] in Hs. rewrite Nat2Z.inj_succ in Hs.
    assert (Hg : searching s = true) by (apply searching_true; lia).
    destruct Hn as [Hq Hn].
    assert (D : Qltb q (last_metric s) = false) by (apply Qltb_ge; exact Hq).
    rewrite run_feed_search by assumption. cbn [final trace status].
    cbn [app metrics].
    destruct (IH (sample s q)) as (M & Dc & St & F & L & Mx & P).
    + exact Hn.
    + cbn [sample max_metric last_metric].
      destruct (Qltb (max_metric s) q) eqn:E; [apply Qeq_refl |].
      apply Qltb_ge in E. apply Qle_antisym; [| exact E].
      rewrite Hm. exact Hq.
    + cbn [sample dec_frames]. rewrite D. lia.
    + cbn [sample step]. lia.
    + cbn [sample step]. lia.
    + cbv zeta in M, Dc, St, F, L, Mx, P.
      rewrite M, Dc, St, F, L, P. cbn [sample dec_frames step finished last_metric].
      rewrite D, last_cons. cbn [length]. rewrite Nat2Z.inj_succ.
      split; [reflexivity |]. split; [destruct qs; reflexivity |].
      split; [lia |]. split; [reflexivity |]. split; [reflexivity |].
      split; [| reflexivity].
      rewrite Mx. cbn [sample last_metric]. apply Qeq_refl.
Qed.

(** X13.  While the scores never fall (each at least the one before, the
    first at least 0), an undisturbed search from the initial values runs
    on: up to 101 such scores are all sampled, [dec_frames] stays 0,
    [finished] is not set, [step] has moved by ten per score and the best
    value is the latest score. *)
Theorem rising_scores_sweep (qs : list Q) :
  nondecreasing (0%Q :: qs) -> (length qs <= 101)%nat ->
  let r := run init (map feed qs) in
  metrics (trace r) = qs
  /\ dec_frames (final r) = 0
  /\ finished (final r) = false
  /\ step (final r) = 10 + 10 * Z.of_nat (length qs)
  /\ (max_metric (final r) == last qs 0%Q)%Q.
Proof.
  intros Hn Hl. cbv zeta.
  destruct (ascent qs init) as (M & D & St & F & _ & Mx & _);
    cbn [init last_metric max_metric dec_frames step finished];
    try lia; try assumption; try apply Qeq_refl.
  cbv zeta in M, D, St, F, Mx.
  cbn [init last_metric max_metric dec_frames step finished] in D, St, F, Mx.
  split; [exact M |]. split; [destruct qs; exact D |].
  split; [exact F |]. split; [exact St | exact Mx].
Qed.

Lemma rising_scores_sweep_witness :
  let qs := map inject_Z [1; 1; 4; 9] in
  let r := run init (map feed qs) in
  nondecreasing (0%Q :: qs) /\ metrics (trace r) = qs /\ dec_frames (final r) = 0.
Proof.
  cbv zeta.
  assert (N : nondecreasing (0%Q :: map inject_Z [1; 1; 4; 9])).
  { cbn. repeat split; discriminate. }
  split; [exact N |].
  destruct (rising_scores_sweep (map inject_Z [1; 1; 4; 9]) N) as (M & D & _).
  - cbn. lia.
  - split; assumption.
Defined.

(** ** What the search remembers *)

Lemma Remembered_tick (s : State) (i : Input) :
  Inv s /\ Remembered s ->
  Inv (fst (fst (tick s i))) /\ Remembered (fst (fst (tick s i))).
Proof.
  intros [HI HR]. split; [apply Inv_tick; exact HI |].
  destruct (tick_state_cases s i) as [E | [(q & Hs & E) | [(_ & _ & E) | E]]];
    rewrite E; try exact HR.
  - destruct HR as (R0 & R1 & R2). unfold Inv in HI.
    unfold Remembered. cbn [sample max_metric max_step step].
    destruct (Qltb (max_metric s) q) eqn:Hq.
    + apply Qltb_lt in Hq.
      assert (P : (0 < q)%Q) by (eapply Qle_lt_trans; eassumption).
      split; [apply Qlt_le_weak; exact P |].
      split; [| intros _; lia].
      intros N. apply Qltb_ge in N.
      destruct (Qlt_not_le _ _ P N).
    + split; [exact R0 |]. split; [exact R1 |].
      intros T. specialize (R2 T). lia.
  - unfold Remembered. cbn. split; [discriminate |]. split; [reflexivity | discriminate].
Qed.

(** X14.  In every state a run from the initial values reaches, whatever
    the inputs: [max_metric] is not negative; as long as it is 0 (no
    positive score seen since the last restart) [max_step] is the initial
    10; once it is positive, [max_step] is a position the sweep has
    already passed, at least 10 and below [step]. *)
Theorem best_is_behind (ins : list Input) :
  let s := final (run init ins) in
  (0 <= max_metric s)%Q
  /\ ((max_metric s == 0)%Q -> max_step s = 10)
  /\ ((0 < max_metric s)%Q -> 10 <= max_step s < step s).
Proof.
  cbv zeta.
  assert (H : Inv (final (run init ins)) /\ Remembered (final (run init ins))).
  { apply (run_preserves (fun s => Inv s /\ Remembered s) Remembered_tick).
    split; [exact Inv_init |].
    unfold Remembered. cbn.
    split; [discriminate |]. split; [reflexivity | discriminate]. }
  destruct H as [HI (R0 & R1 & R2)]. unfold Inv in HI.
  split; [exact R0 |]. split.
  - intros E. apply R1, Qltb_ge. rewrite E. apply Qle_refl.
  - intros T. apply Qltb_lt in T. specialize (R2 T). lia.
Qed.

Lemma best_is_behind_witness :
  let s := final (run init (scores [5; 8; 3])) in
  (0 < max_metric s)%Q /\ 10 <= max_step s < step s.
Proof.
  cbv zeta. split; [reflexivity |].
  apply (proj2 (proj2 (best_is_behind (scores [5; 8; 3])))). reflexivity.
Defined.

(** ** A bus failure during the sweep *)

Lemma last_after {A : Type} (l t : list A) (x d : A) :
  last (l ++ x :: t) d = last (x :: t) d.
Proof.
  induction l as [| a l IH]; [reflexivity |].
  cbn [app]. rewrite <- IH.
  destruct (l ++ x :: t) eqn:E; [destruct l; discriminate | reflexivity].
Qed.

(** X15.  When [i2cset] fails in an iteration of the sweep, in a run from
    the initial values: the run ends there in order, with the variables as
    they were, no sample taken, the camera released, and one more message,
    the error of line 81; it carries the exit status and the two bytes of
    the write, which read back as the [step] that failed. *)
Theorem sweep_failure_reported (ins rest : list Input) (i : Input) (q : Q) :
  status (run init ins) = Pending ->
  searching (final (run init ins)) = true ->
  window i = true -> frame i = Some q -> i2c_rc i <> 0 ->
  let s := final (run init ins) in
  let r := run init (ins ++ i :: rest) in
  let e := CalledProcessError (i2c_rc i) (Actuator.data1 (step s))
             (Actuator.data2 (step s)) in
  status r = Exited
  /\ final r = s
  /\ printed (trace r) = printed (trace (run init ins)) ++ [MsgI2cError e]
  /\ metrics (trace r) = metrics (trace (run init ins))
  /\ last (trace r) EvImshow = EvRelease
  /\ Actuator.decode (Actuator.data1 (step s)) (Actuator.data2 (step s)) = step s.
Proof.
  intros Hp Hs Hw Hf Hrc. cbv zeta.
  assert (HI : Inv (final (run init ins))).
  { apply (run_preserves Inv Inv_tick). exact Inv_init. }
  rewrite run_app by exact Hp. cbn [final trace status].
  assert (T : tick (final (run init ins)) i =
              (final (run init ins),
               [EvImshow; EvSetFocus (step (final (run init ins)));
                EvI2cset (Actuator.data1 (step (final (run init ins))))
                  (Actuator.data2 (step (final (run init ins))));
                EvPrint (MsgI2cError
                  (CalledProcessError (i2c_rc i)
                     (Actuator.data1 (step (final (run init ins))))
                     (Actuator.data2 (step (final (run init ins))))))],
               Stop)).
  { unfold tick, focus_stage. rewrite Hf, Hs. unfold Inv in HI.
    rewrite ActuatorFacts.set_focus_in_range by lia.
    apply Z.eqb_neq in Hrc. rewrite Hrc. reflexivity. }
  rewrite run_cons, Hw, T. cbn [final trace status].
  rewrite printed_app, metrics_app. cbn [app printed metrics].
  rewrite app_nil_r.
  split; [reflexivity |]. split; [reflexivity |]. split; [reflexivity |].
  split; [reflexivity |]. split.
  - rewrite last_after. reflexivity.
  - apply ActuatorFacts.decode_data. unfold Inv in HI. lia.
Qed.

Lemma sweep_failure_reported_witness :
  let i := {| window := true; frame := Some 0%Q; i2c_rc := 2; waitKey := -1 |} in
  let r := run init (scores [5; 8] ++ i :: scores [3]) in
  status r = Exited /\ step (final r) = 30.
Proof.
  cbv zeta.
  destruct (sweep_failure_reported (scores [5; 8]) (scores [3])
              {| window := true; frame := Some 0%Q; i2c_rc := 2; waitKey := -1 |} 0%Q)
    as (St & F & _); try reflexivity.
  - discriminate.
  - split; [exact St | rewrite F; reflexivity].
Defined.

(** ** The camera pipeline *)

Module PipelineFacts.
Import Stdlib.Strings.Ascii Stdlib.Strings.String.
Import Pipeline.
Local Open Scope string_scope.

Lemma span_uint (d : Decimal.uint) (c : ascii) (r : string) :
  is_num c = false ->
  span_num (DecimalString.NilEmpty.string_of_uint d ++ String c r)
    = (DecimalString.NilEmpty.string_of_uint d, String c r).
Proof.
  intros Hc. induction d; cbn [DecimalString.NilEmpty.string_of_uint append span_num];
    try (change (is_num _) with true; cbv iota; rewrite IHd; reflexivity).
  rewrite Hc. reflexivity.
Qed.

Lemma read_int_str (z : Z) (c : ascii) (r : string) :
  is_num c = false -> read_int (str z ++ String c r) = Some (z, String c r).
Proof.
  intros Hc. unfold read_int, str.
  assert (E : span_num (DecimalString.NilEmpty.string_of_int (Z.to_int z) ++ String c r)
              = (DecimalString.NilEmpty.string_of_int (Z.to_int z), String c r)).
  { destruct (Z.to_int z) as [d | d]; cbn [DecimalString.NilEmpty.string_of_int].
    - apply span_uint. exact Hc.
    - cbn [append span_num]. change (is_num "-") with true. cbv iota.
      rewrite span_uint by exact Hc. reflexivity. }
  rewrite E. cbn [fst snd]. rewrite DecimalString.NilEmpty.isi, DecimalZ.of_to.
  reflexivity.
Qed.

Lemma parse_pipeline (cw ch dw dh fr fl : Z) :
  parse (gstreamer_pipeline cw ch dw dh fr fl) = Some (cw, ch, dw, dh, fr, fl).
Proof.
  unfold parse, gstreamer_pipeline, field.
  cbn [append strip Ascii.eqb Bool.eqb].
  repeat (rewrite read_int_str by reflexivity;
          cbn [and_then append strip Ascii.eqb Bool.eqb]).
  reflexivity.
Qed.

(** X16.  The pipeline description can be read back: parsing the string
    [gstreamer_pipeline] builds gives the six numbers it was built from,
    negative ones included, so two calls give the same description only
    for the same six arguments. *)
Theorem pipeline_round_trip (cw ch dw dh fr fl : Z) :
  parse (gstreamer_pipeline cw ch dw dh fr fl) = Some (cw, ch, dw, dh, fr, fl)
  /\ forall cw' ch' dw' dh' fr' fl',
       gstreamer_pipeline cw' ch' dw' dh' fr' fl'
         = gstreamer_pipeline cw ch dw dh fr fl ->
       (cw', ch', dw', dh', fr', fl') = (cw, ch, dw, dh, fr, fl).
Proof.
  split; [apply parse_pipeline |].
  intros cw' ch' dw' dh' fr' fl' E.
  apply (f_equal parse) in E. rewrite !parse_pipeline in E.
  injection E as -> -> -> -> -> ->. reflexivity.
Qed.

End PipelineFacts.
